(** * Employee directory service: request handlers over a relational store

    A shallow embedding of the Express application that combines credential
    registration and login, bearer-token authorization, zod body validation
    and MySQL persistence (the [authenticate] middleware and the seven route
    handlers registered on [app]).

    Conventions.
    - A JavaScript string is a Rocq [string]; [String.length] stands for the
      [.length] of the source string (one character per code unit).
    - A handler is a program of type [Prog Response]: every
      [await pool.query(...)] is a suspension point [Await] whose continuation
      receives either the rows/result header or the rejection, and [try_catch]
      is the handler's [try { ... } catch (error) { ... }].
    - The libraries the handlers call (zod's e-mail pattern, bcryptjs,
      jsonwebtoken, the engine's comparison of a column with a bound
      parameter) are fields of one record [Collaborators]; every definition
      is parametric in it.
    - The store is the two tables created by [initializeDB].
    - A request is one that reached its route: the rate limiter, the logger
      and the CORS layer in front of the routes are not part of the model,
      and [body] is what [express.json()] left in [req.body].
    - The other applications of the repository are modelled after it: the
      one without authentication that follows in the same file ([Open]), the
      one on SQLite ([Lite]) and the one that keeps its employees in an
      array ([Memory]). *)

From Stdlib Require Import List String Ascii ZArith Bool Lia.
From Stdlib Require Import DecimalString DecimalZ.
Import ListNotations.

Set Warnings "-register-all".

Open Scope string_scope.
Open Scope Z_scope.

(** ** JSON values *)

(** A request body after [express.json()], and a response body given to
    [res.json].  An object is the list of its own properties in insertion
    order; [get] is property access and yields [None] for [undefined]. *)
Inductive json : Type :=
| JNull
| JBool (b : bool)
| JNum (n : Z)
| JStr (s : string)
| JArr (items : list json)
| JObj (fields : list (string * json)).

Fixpoint assoc {V : Type} (key : string) (fields : list (string * V)) : option V :=
  match fields with
  | [] => None
  | (k, v) :: rest => if String.eqb k key then Some v else assoc key rest
  end.

Definition get (key : string) (v : json) : option json :=
  match v with
  | JObj fields => assoc key fields
  | _ => None
  end.

(** ** zod schemas *)

(** The issues a [ZodError] carries in [error.errors]. *)
Inductive ZodIssue : Type :=
| invalid_type (expected received : string) (path : list string)
| too_small (minimum : Z) (message : string) (path : list string)
| invalid_string (validation : string) (path : list string).

Definition issue_path (i : ZodIssue) : list string :=
  match i with
  | invalid_type _ _ p => p
  | too_small _ _ p => p
  | invalid_string _ p => p
  end.

(** zod's default error map. *)
Definition issue_message (i : ZodIssue) : string :=
  match i with
  | invalid_type expected received _ =>
      if String.eqb received "undefined" then "Required"
      else "Expected " ++ expected ++ ", received " ++ received
  | too_small _ message _ => message
  | invalid_string _ _ => "Invalid email"
  end.

Definition path_json (p : list string) : json := JArr (map JStr p).

Definition issue_json (i : ZodIssue) : json :=
  match i with
  | invalid_type expected received p =>
      JObj [("code", JStr "invalid_type"); ("expected", JStr expected);
            ("received", JStr received); ("path", path_json p);
            ("message", JStr (issue_message i))]
  | too_small minimum message p =>
      JObj [("code", JStr "too_small"); ("minimum", JNum minimum);
            ("type", JStr "string"); ("inclusive", JBool true);
            ("exact", JBool false); ("message", JStr message);
            ("path", path_json p)]
  | invalid_string validation p =>
      JObj [("validation", JStr validation); ("code", JStr "invalid_string");
            ("message", JStr (issue_message i)); ("path", path_json p)]
  end.

Definition issues_json (errors : list ZodIssue) : json := JArr (map issue_json errors).

(** [typeof]-like classification zod reports in [received]. *)
Definition parsed_type (v : option json) : string :=
  match v with
  | None => "undefined"
  | Some JNull => "null"
  | Some (JBool _) => "boolean"
  | Some (JNum _) => "number"
  | Some (JStr _) => "string"
  | Some (JArr _) => "array"
  | Some (JObj _) => "object"
  end.

(** The refinements chained on [z.string()] in the source; [message] is the
    text of the issue, the caller's or zod's default. *)
Inductive StringCheck : Type :=
| Min (n : Z) (message : string)
| Email.

Definition strlen (s : string) : Z := Z.of_nat (String.length s).

(** ** What the handlers call but do not define *)

Record JwtPayload : Type := { userId : Z; iat : Z; exp : Z }.

(** [jwt.verify] either returns the decoded payload or throws one of the
    library's error classes; [authenticate] catches them all alike. *)
Inductive JwtError : Type := TokenExpiredError | JsonWebTokenError | NotBeforeError.

Inductive Verified : Type :=
| Decoded (payload : JwtPayload)
| VerifyThrew (e : JwtError).

Record Collaborators : Type := {
  (** zod's pattern behind [z.string().email()] *)
  zod_email : string -> bool;
  (** [ZodError.message] (the issues, serialised) *)
  zod_message : list ZodIssue -> string;
  (** [bcrypt.hash(password, 10)] *)
  bcrypt_hash : string -> string;
  (** [bcrypt.compare(password, digest)] *)
  bcrypt_compare : string -> string -> bool;
  (** [jwt.sign({ userId }, process.env.JWT_SECRET, { expiresIn: '1h' })]:
      the token, or the message of the error it throws *)
  jwt_sign : Z -> string + string;
  (** [jwt.verify(token, process.env.JWT_SECRET)] *)
  jwt_verify : string -> Verified;
  (** the engine's [=] between an [INT] column and a bound string *)
  sql_int_eq : Z -> string -> bool;
  (** the engine's [=] between a [VARCHAR] column and a bound string *)
  sql_str_eq : string -> string -> bool
}.

(** ** The store *)

(** Rows of the tables [users] and [employees] of [initializeDB]. *)
Record UserRow : Type := { user_id : Z; user_email : string; user_password : string }.

Record EmployeeRow : Type := { emp_id : Z; emp_name : string; emp_position : string }.

(** What mysql2 resolves an INSERT, UPDATE or DELETE with. *)
Record ResultSetHeader : Type := { insertId : Z; affectedRows : Z }.

(** The tables with their [AUTO_INCREMENT] counters.  [strict] is the
    session's strict SQL mode; [outage], when set, is the message of the
    error every query is rejected with (the server cannot be reached). *)
Record Db : Type := {
  users : list UserRow;
  employees : list EmployeeRow;
  users_auto : Z;
  employees_auto : Z;
  strict : bool;
  outage : option string
}.

Definition with_users (db : Db) (rows : list UserRow) (auto : Z) : Db :=
  {| users := rows; employees := employees db; users_auto := auto;
     employees_auto := employees_auto db; strict := strict db; outage := outage db |}.

Definition with_employees (db : Db) (rows : list EmployeeRow) (auto : Z) : Db :=
  {| users := users db; employees := rows; users_auto := users_auto db;
     employees_auto := auto; strict := strict db; outage := outage db |}.

(** What a handler can catch.  A [ZodError] is thrown by [schema.parse], an
    [Error] by the pool (and by jsonwebtoken); [NotAnError] stands for a
    thrown value that is no instance of [Error]. *)
Inductive Thrown : Type :=
| ZodError (errors : list ZodIssue)
| JsError (message : string)
| NotAnError.

Inductive Outcome (T : Type) : Type :=
| Rejected (e : Thrown)
| Resolved (r : T).
Arguments Rejected {T} e.
Arguments Resolved {T} r.

(** The seven statements the handlers send, each with its bound parameters
    and the type it resolves to. *)
Inductive Sql : Type -> Type :=
| SelectUsersByEmail (email : string) : Sql (list UserRow)
| InsertUser (email password : string) : Sql ResultSetHeader
| InsertEmployee (name position : string) : Sql ResultSetHeader
| SelectEmployees : Sql (list EmployeeRow)
| SelectEmployeeById (id : string) : Sql (list EmployeeRow)
| UpdateEmployee (name position id : string) : Sql ResultSetHeader
| DeleteEmployee (id : string) : Sql ResultSetHeader.

(** Width of every [VARCHAR(255)] column. *)
Definition varchar : Z := 255.

Definition fits (s : string) : bool := strlen s <=? varchar.

(** What a non-strict session stores for a value wider than its column. *)
Definition truncate (s : string) : string := substring 0 (Z.to_nat varchar) s.

Definition too_long (column : string) : Thrown :=
  JsError ("Data too long for column '" ++ column ++ "' at row 1").

Definition duplicate_entry (email : string) : Thrown :=
  JsError ("Duplicate entry '" ++ email ++ "' for key 'users.email'").

Section Service.

Variable X : Collaborators.

Definition email_is (email : string) (u : UserRow) : bool := sql_str_eq X (user_email u) email.

Definition id_is (id : string) (e : EmployeeRow) : bool := sql_int_eq X (emp_id e) id.

Definition count {A : Type} (rows : list A) : Z := Z.of_nat (List.length rows).

(** Two [VARCHAR(255)] values on their way into a row: stored as they are
    when they fit, refused in strict mode and cut otherwise. *)
Definition store2 (db : Db) (c1 v1 c2 v2 : string) : Thrown + string * string :=
  if negb (fits v1) && strict db then inl (too_long c1)
  else if negb (fits v2) && strict db then inl (too_long c2)
  else inr (truncate v1, truncate v2).

Definition set_employee (name position : string) (e : EmployeeRow) : EmployeeRow :=
  {| emp_id := emp_id e; emp_name := name; emp_position := position |}.

(** One statement against the store.  [affectedRows] of an UPDATE counts the
    rows the WHERE clause found (mysql2 connects with the FOUND_ROWS client
    flag), changed or not.  A refused INSERT into [users] still consumes an
    id (InnoDB). *)
Definition exec_up (db : Db) {T : Type} (q : Sql T) : Db * Outcome T :=
  match q in Sql T return Db * Outcome T with
  | SelectUsersByEmail email => (db, Resolved (filter (email_is email) (users db)))
  | InsertUser email password =>
      match store2 db "email" email "password" password with
      | inl e => (db, Rejected e)
      | inr (email', password') =>
          if existsb (email_is email') (users db)
          then (with_users db (users db) (users_auto db + 1), Rejected (duplicate_entry email'))
          else (with_users db
                  (users db ++ [{| user_id := users_auto db; user_email := email';
                                   user_password := password' |}])
                  (users_auto db + 1),
                Resolved {| insertId := users_auto db; affectedRows := 1 |})
      end
  | InsertEmployee name position =>
      match store2 db "name" name "position" position with
      | inl e => (db, Rejected e)
      | inr (name', position') =>
          (with_employees db
             (employees db ++ [{| emp_id := employees_auto db; emp_name := name';
                                  emp_position := position' |}])
             (employees_auto db + 1),
           Resolved {| insertId := employees_auto db; affectedRows := 1 |})
      end
  | SelectEmployees => (db, Resolved (employees db))
  | SelectEmployeeById id => (db, Resolved (filter (id_is id) (employees db)))
  | UpdateEmployee name position id =>
      if existsb (id_is id) (employees db) then
        match store2 db "name" name "position" position with
        | inl e => (db, Rejected e)
        | inr (name', position') =>
            (with_employees db
               (map (fun e => if id_is id e then set_employee name' position' e else e)
                  (employees db))
               (employees_auto db),
             Resolved {| insertId := 0; affectedRows := count (filter (id_is id) (employees db)) |})
        end
      else (db, Resolved {| insertId := 0; affectedRows := 0 |})
  | DeleteEmployee id =>
      (with_employees db (filter (fun e => negb (id_is id e)) (employees db)) (employees_auto db),
       Resolved {| insertId := 0; affectedRows := count (filter (id_is id) (employees db)) |})
  end.

Definition exec (db : Db) {T : Type} (q : Sql T) : Db * Outcome T :=
  match outage db with
  | Some message => (db, Rejected (JsError message))
  | None => exec_up db q
  end.

End Service.

(** ** Handlers as programs *)

(** A computation that may throw and that suspends at every query. *)
Inductive Prog (A : Type) : Type :=
| Ret (a : A)
| Throw (e : Thrown)
| Await {T : Type} (q : Sql T) (k : Outcome T -> Prog A).
Arguments Ret {A} a.
Arguments Throw {A} e.
Arguments Await {A T} q k.

Fixpoint bind {A B : Type} (p : Prog A) (f : A -> Prog B) : Prog B :=
  match p with
  | Ret a => f a
  | Throw e => Throw e
  | Await q k => Await q (fun o => bind (k o) f)
  end.

Notation "x <- p ;; q" := (bind p (fun x => q))
  (at level 61, p at next level, right associativity).

(** [await pool.query(...)]: a rejection is thrown where it is awaited. *)
Definition await {T : Type} (q : Sql T) : Prog T :=
  Await q (fun o => match o with
                    | Rejected e => Throw e
                    | Resolved r => Ret r
                    end).

(** [try { p } catch (error) { h error }] *)
Fixpoint try_catch {A : Type} (p : Prog A) (h : Thrown -> Prog A) : Prog A :=
  match p with
  | Ret a => Ret a
  | Throw e => h e
  | Await q k => Await q (fun o => try_catch (k o) h)
  end.

(** [schema.parse(data)] *)
Definition parse {A : Type} (r : list ZodIssue + A) : Prog A :=
  match r with
  | inl errors => Throw (ZodError errors)
  | inr a => Ret a
  end.

Record Request : Type := {
  authorization : option string;   (* req.headers.authorization *)
  body : option json;              (* req.body *)
  params_id : string;              (* req.params.id *)
  user : option JwtPayload         (* req.user, set by authenticate *)
}.

Record Response : Type := { status : Z; payload : json }.

(** [res.status(code).json(value)] *)
Definition respond (code : Z) (value : json) : Response :=
  {| status := code; payload := value |}.

(** [{ error: message }] *)
Definition error_body (message : string) : json := JObj [("error", JStr message)].

Definition employee_json (e : EmployeeRow) : json :=
  JObj [("id", JNum (emp_id e)); ("name", JStr (emp_name e));
        ("position", JStr (emp_position e))].

(** [s.split(sep)] for a one-character separator. *)
Fixpoint split (sep : ascii) (s : string) : list string :=
  match s with
  | EmptyString => [EmptyString]
  | String c rest =>
      if Ascii.eqb c sep then EmptyString :: split sep rest
      else match split sep rest with
           | [] => [String c EmptyString]
           | w :: ws => String c w :: ws
           end
  end.

(** [req.headers.authorization?.split(' ')[1]], [None] when it is falsy
    ([undefined] or the empty string). *)
Definition bearer (header : option string) : option string :=
  match header with
  | None => None
  | Some h =>
      match nth_error (split " "%char h) 1 with
      | Some EmptyString => None
      | t => t
      end
  end.

Record Credentials : Type := { email : string; password : string }.

Record EmployeeData : Type := { name : string; position : string }.

Section Handlers.

Variable X : Collaborators.

Definition check (path : list string) (s : string) (c : StringCheck) : list ZodIssue :=
  match c with
  | Min n message => if strlen s <? n then [too_small n message path] else []
  | Email => if zod_email X s then [] else [invalid_string "email" path]
  end.

(** [z.string()] with its refinements: a value that is no string is one
    [invalid_type] issue; on a string every refinement is evaluated. *)
Definition zstring (checks : list StringCheck) (path : list string) (v : option json)
  : list ZodIssue + string :=
  match v with
  | Some (JStr s) =>
      match flat_map (check path s) checks with
      | [] => inr s
      | errors => inl errors
      end
  | _ => inl [invalid_type "string" (parsed_type v) path]
  end.

Definition issues_of {A : Type} (r : list ZodIssue + A) : list ZodIssue :=
  match r with
  | inl errors => errors
  | inr _ => []
  end.

(** [z.object({ k1: s1, k2: s2 })]: both keys are parsed whatever the other
    gives, their issues are concatenated in key order, unknown keys are
    dropped from the result. *)
Definition zobject {A : Type} (k1 : string) (s1 : list StringCheck)
    (k2 : string) (s2 : list StringCheck) (mk : string -> string -> A)
    (data : option json) : list ZodIssue + A :=
  match data with
  | Some (JObj fields) =>
      match zstring s1 [k1] (assoc k1 fields), zstring s2 [k2] (assoc k2 fields) with
      | inr a, inr b => inr (mk a b)
      | r1, r2 => inl (issues_of r1 ++ issues_of r2)%list
      end
  | _ => inl [invalid_type "object" (parsed_type data) []]
  end.

Definition employeeSchema : option json -> list ZodIssue + EmployeeData :=
  zobject "name" [Min 2 "Name must be at least 2 characters"]
          "position" [Min 2 "Position cannot be empty"]
          Build_EmployeeData.

Definition userSchema : option json -> list ZodIssue + Credentials :=
  zobject "email" [Email]
          "password" [Min 6 "String must contain at least 6 character(s)"]
          Build_Credentials.

(** The schema written inline in the login handler. *)
Definition loginSchema : option json -> list ZodIssue + Credentials :=
  zobject "email" [Email]
          "password" [Min 1 "Password cannot be empty"]
          Build_Credentials.

(** [error instanceof Error ? error.message : fallback] *)
Definition message_or (fallback : string) (error : Thrown) : string :=
  match error with
  | ZodError errors => zod_message X errors
  | JsError message => message
  | NotAnError => fallback
  end.

(** *** The middleware *)

Inductive Middleware : Type :=
| Responded (r : Response)
| Next (req : Request).

Definition authenticate (req : Request) : Middleware :=
  match bearer (authorization req) with
  | None => Responded (respond 401 (error_body "Access denied"))
  | Some token =>
      match jwt_verify X token with
      | Decoded decoded =>
          Next {| authorization := authorization req; body := body req;
                  params_id := params_id req; user := Some decoded |}
      | VerifyThrew _ => Responded (respond 400 (error_body "Invalid token"))
      end
  end.

(** [app.METHOD(path, authenticate, handler)] *)
Definition protected (handler : Request -> Prog Response) (req : Request) : Prog Response :=
  match authenticate req with
  | Responded r => Ret r
  | Next req' => handler req'
  end.

(** *** The routes *)

Definition post_login (req : Request) : Prog Response :=
  try_catch
    (c <- parse (loginSchema (body req)) ;;
     rows <- await (SelectUsersByEmail (email c)) ;;
     match rows with
     | [] => Ret (respond 401 (error_body "Invalid credentials"))
     | u :: _ =>
         if negb (bcrypt_compare X (password c) (user_password u))
         then Ret (respond 401 (error_body "Invalid credentials"))
         else match jwt_sign X (user_id u) with
              | inl token => Ret (respond 200 (JObj [("token", JStr token)]))
              | inr message => Throw (JsError message)
              end
     end)
    (fun error =>
       match error with
       | ZodError errors =>
           Ret (respond 400 (JObj [("error", JStr "Validation error");
                                   ("details", issues_json errors)]))
       | _ => Ret (respond 500 (error_body "Login failed"))
       end).

Definition post_register (req : Request) : Prog Response :=
  try_catch
    (c <- parse (userSchema (body req)) ;;
     let hashedPassword := bcrypt_hash X (password c) in
     existing <- await (SelectUsersByEmail (email c)) ;;
     match existing with
     | _ :: _ => Ret (respond 409 (error_body "Email already exists"))
     | [] =>
         _ <- await (InsertUser (email c) hashedPassword) ;;
         Ret (respond 201 (JObj [("message", JStr "User registered successfully")]))
     end)
    (fun error => Ret (respond 500 (error_body "Registration failed"))).

(** The [catch] block shared by the two handlers that parse an employee. *)
Definition employee_catch (error : Thrown) : Prog Response :=
  match error with
  | ZodError errors =>
      Ret (respond 400 (JObj [("error", JStr "Validation failed");
                              ("details", issues_json errors)]))
  | _ => Ret (respond 400 (error_body (message_or "Invalid request" error)))
  end.

Definition server_error (error : Thrown) : Prog Response :=
  Ret (respond 500 (error_body (message_or "Server error" error))).

Definition post_employees (req : Request) : Prog Response :=
  try_catch
    (validatedData <- parse (employeeSchema (body req)) ;;
     result <- await (InsertEmployee (name validatedData) (position validatedData)) ;;
     Ret (respond 201 (JObj [("id", JNum (insertId result));
                             ("name", JStr (name validatedData));
                             ("position", JStr (position validatedData))])))
    employee_catch.

Definition get_employees (req : Request) : Prog Response :=
  try_catch
    (rows <- await SelectEmployees ;;
     Ret (respond 200 (JArr (map employee_json rows))))
    server_error.

Definition get_employee (req : Request) : Prog Response :=
  try_catch
    (rows <- await (SelectEmployeeById (params_id req)) ;;
     match rows with
     | [] => Ret (respond 404 (error_body "Employee not found"))
     | row :: _ => Ret (respond 200 (employee_json row))
     end)
    server_error.

Definition put_employee (req : Request) : Prog Response :=
  try_catch
    (validatedData <- parse (employeeSchema (body req)) ;;
     result <- await (UpdateEmployee (name validatedData) (position validatedData)
                        (params_id req)) ;;
     if affectedRows result =? 0
     then Ret (respond 404 (error_body "Employee not found"))
     else Ret (respond 200 (JObj [("id", JStr (params_id req));
                                  ("name", JStr (name validatedData));
                                  ("position", JStr (position validatedData))])))
    employee_catch.

Definition delete_employee (req : Request) : Prog Response :=
  try_catch
    (result <- await (DeleteEmployee (params_id req)) ;;
     if affectedRows result =? 0
     then Ret (respond 404 (error_body "Employee not found"))
     else Ret (respond 200 (JObj [("message", JStr "Employee deleted successfully")])))
    server_error.

Inductive Route : Type :=
| POST_login
| POST_register
| POST_employees
| GET_employees
| GET_employee
| PUT_employee
| DELETE_employee.

(** The routing table: which handler runs, behind [authenticate] or not. *)
Definition app (r : Route) : Request -> Prog Response :=
  match r with
  | POST_login => post_login
  | POST_register => post_register
  | POST_employees => protected post_employees
  | GET_employees => get_employees
  | GET_employee => get_employee
  | PUT_employee => protected put_employee
  | DELETE_employee => protected delete_employee
  end.

(** *** Running programs against the store *)

(** One request served with no other in between. *)
Fixpoint run {A : Type} (p : Prog A) (db : Db) : Db * Outcome A :=
  match p with
  | Ret a => (db, Resolved a)
  | Throw e => (db, Rejected e)
  | Await q k => let (db', o) := exec X db q in run (k o) db'
  end.

(** One query of a suspended program: the event loop resumes it with what
    the store answered. *)
Definition step {A : Type} (db : Db) (p : Prog A) : Db * Prog A :=
  match p with
  | Await q k => let (db', o) := exec X db q in (db', k o)
  | _ => (db, p)
  end.

(** Two requests in flight; the schedule says whose pending query the store
    answers next ([true]: the first). *)
Fixpoint interleave {A : Type} (schedule : list bool) (db : Db) (p1 p2 : Prog A)
  : Db * Prog A * Prog A :=
  match schedule with
  | [] => (db, p1, p2)
  | true :: rest => let (db', p1') := step db p1 in interleave rest db' p1' p2
  | false :: rest => let (db', p2') := step db p2 in interleave rest db' p1 p2'
  end.

End Handlers.

Definition serve (X : Collaborators) (r : Route) (req : Request) (db : Db)
  : Db * Outcome Response :=
  run X (app X r req) db.

(** The routes registered with [authenticate]. *)
Definition is_protected (r : Route) : bool :=
  match r with
  | POST_employees | PUT_employee | DELETE_employee => true
  | _ => false
  end.

(** ** Observations on requests, answers and stores *)

(** A request that gets past [authenticate]. *)
Definition authorized (X : Collaborators) (req : Request) : bool :=
  match authenticate X req with
  | Next _ => true
  | Responded _ => false
  end.

(** The status a served request was answered with. *)
Definition answer_status (served : Db * Outcome Response) : option Z :=
  match snd served with
  | Resolved response => Some (status response)
  | Rejected _ => None
  end.


(** The [AUTO_INCREMENT] counter of [employees] is ahead of every id in the
    table. *)
Definition auto_increment_ahead (db : Db) : bool :=
  forallb (fun e => emp_id e <? employees_auto db) (employees db).

(** ** The token service *)

Definition decimal (z : Z) : string := NilEmpty.string_of_int (Z.to_int z).

Definition undecimal (s : string) : option Z := option_map Z.of_int (NilEmpty.int_of_string s).

(** No dot among the characters of [s]. *)
Fixpoint no_dot (s : string) : bool :=
  match s with
  | EmptyString => true
  | String c rest => negb (Ascii.eqb c "."%char) && no_dot rest
  end.

Module TokenService.

(** Modelled from the spec: the token service ([jwt.sign] and [jwt.verify]
    are jsonwebtoken's, whose code is not among the sources).  A token embeds
    the subject id, its issue time and an expiry one hour later, and carries a
    signature of these claims under the process-wide secret; verification
    checks the structure and the signature first and the expiry second.  Times
    are in seconds; the compact form is the four numbers in decimal, joined
    by dots. *)
Record Token : Type := { claims : JwtPayload; signature : Z }.

(** [expiresIn: '1h'] *)
Definition lifetime : Z := 3600.

Inductive Verdict : Type :=
| Subject (subjectId : Z)
| Invalid
| Expired.

Definition encode (t : Token) : string :=
  decimal (userId (claims t)) ++ "." ++ decimal (iat (claims t)) ++ "."
  ++ decimal (exp (claims t)) ++ "." ++ decimal (signature t).

Definition decode (s : string) : option Token :=
  match split "."%char s with
  | [u; i; e; g] =>
      match undecimal u, undecimal i, undecimal e, undecimal g with
      | Some u', Some i', Some e', Some g' =>
          Some {| claims := {| userId := u'; iat := i'; exp := e' |}; signature := g' |}
      | _, _, _, _ => None
      end
  | _ => None
  end.

Section Keyed.

(** The keyed signature of the claims, and the secret loaded at startup. *)
Variable mac : string -> JwtPayload -> Z.
Variable secret : string.

(** Modelled from the spec: [issue(subjectId)] embeds the subject id, the
    issue time and expiry = issue time + 1 hour, and signs with the secret. *)
Definition issue (now : Z) (subjectId : Z) : string :=
  let c := {| userId := subjectId; iat := now; exp := now + lifetime |} in
  encode {| claims := c; signature := mac secret c |}.

(** Modelled from the spec: [verify(token)] validates the structure and the
    signature first ([Invalid]), then the expiry ([Expired]). *)
Definition verify (now : Z) (token : string) : Verdict :=
  match decode token with
  | None => Invalid
  | Some t =>
      if signature t =? mac secret (claims t) then
        if exp (claims t) <=? now then Expired else Subject (userId (claims t))
      else Invalid
  end.

End Keyed.

End TokenService.

(** ** A concrete environment for examples *)

Module Sample.

Definition has_at (s : string) : bool :=
  existsb (Ascii.eqb "@"%char) (list_ascii_of_string s).

Definition hash (p : string) : string := "$2a$10$" ++ p.

Definition good_token : string := "good".
Definition stale_token : string := "stale".

(** Libraries that accept the token ["good"] for user 1, find ["stale"]
    expired and any other token ill-signed; ids are compared in decimal and
    strings exactly. *)
Definition libs : Collaborators :=
  {| zod_email := has_at;
     zod_message := fun _ => "[]";
     bcrypt_hash := hash;
     bcrypt_compare := fun p digest => String.eqb digest (hash p);
     jwt_sign := fun id => inl ("token." ++ decimal id);
     jwt_verify := fun token =>
       if String.eqb token good_token
       then Decoded {| userId := 1; iat := 0; exp := 3600 |}
       else if String.eqb token stale_token then VerifyThrew TokenExpiredError
       else VerifyThrew JsonWebTokenError;
     sql_int_eq := fun id s => match undecimal s with
                               | Some n => id =? n
                               | None => false
                               end;
     sql_str_eq := String.eqb |}.

(** Both tables empty, the session strict (MySQL's default). *)
Definition empty : Db :=
  {| users := []; employees := []; users_auto := 1; employees_auto := 1;
     strict := true; outage := None |}.

Definition unreachable (db : Db) (message : string) : Db :=
  {| users := users db; employees := employees db; users_auto := users_auto db;
     employees_auto := employees_auto db; strict := strict db; outage := Some message |}.

Definition request (header : option string) (b : option json) (id : string) : Request :=
  {| authorization := header; body := b; params_id := id; user := None |}.

Definition employee_body (n p : string) : option json :=
  Some (JObj [("name", JStr n); ("position", JStr p)]).

Definition credentials_body (e p : string) : option json :=
  Some (JObj [("email", JStr e); ("password", JStr p)]).

(** A store with one employee, id 1. *)
Definition one_employee : Db :=
  {| users := [];
     employees := [{| emp_id := 1; emp_name := "Ali"; emp_position := "Manager" |}];
     users_auto := 1; employees_auto := 2; strict := true; outage := None |}.

(** A string of [n] letters. *)
Fixpoint letters (n : nat) : string :=
  match n with
  | O => EmptyString
  | S m => String "a"%char (letters m)
  end.

End Sample.

(** ** The second application of the file *)

(** The application that follows in the same file keeps the pool, the
    employee schema and the five employee handlers, word for word, and
    registers them with no middleware; it has no route for login or
    registration. *)
Module Open.

Definition app (X : Collaborators) (r : Route) : option (Request -> Prog Response) :=
  match r with
  | POST_employees => Some (post_employees X)
  | GET_employees => Some (get_employees X)
  | GET_employee => Some (get_employee X)
  | PUT_employee => Some (put_employee X)
  | DELETE_employee => Some (delete_employee X)
  | POST_login | POST_register => None
  end.

End Open.

(** ** The application on SQLite *)

(** The third application keeps the schema and the five employee handlers,
    with no middleware, and sends the same statements to an SQLite file:
    [db.run] resolves with [lastID] and [changes] where the pool gave
    [insertId] and [affectedRows], and [db.get] with the first row or
    [undefined].  Its table declares [name] and [position] as [TEXT], of
    any length, and it has no table of users. *)
Module Lite.

Definition no_users : Thrown := JsError "SQLITE_ERROR: no such table: users".

Definition exec (X : Collaborators) (db : Db) {T : Type} (q : Sql T) : Db * Outcome T :=
  match outage db with
  | Some message => (db, Rejected (JsError message))
  | None =>
      match q in Sql T return Db * Outcome T with
      | SelectUsersByEmail _ => (db, Rejected no_users)
      | InsertUser _ _ => (db, Rejected no_users)
      | InsertEmployee name position =>
          (with_employees db
             (employees db ++ [{| emp_id := employees_auto db; emp_name := name;
                                  emp_position := position |}])
             (employees_auto db + 1),
           Resolved {| insertId := employees_auto db; affectedRows := 1 |})
      | SelectEmployees => (db, Resolved (employees db))
      | SelectEmployeeById id => (db, Resolved (filter (id_is X id) (employees db)))
      | UpdateEmployee name position id =>
          (with_employees db
             (map (fun e => if id_is X id e then set_employee name position e else e)
                (employees db))
             (employees_auto db),
           Resolved {| insertId := 0;
                       affectedRows := count (filter (id_is X id) (employees db)) |})
      | DeleteEmployee id =>
          (with_employees db (filter (fun e => negb (id_is X id e)) (employees db))
             (employees_auto db),
           Resolved {| insertId := 0;
                       affectedRows := count (filter (id_is X id) (employees db)) |})
      end
  end.

Fixpoint run (X : Collaborators) {A : Type} (p : Prog A) (db : Db) : Db * Outcome A :=
  match p with
  | Ret a => (db, Resolved a)
  | Throw e => (db, Rejected e)
  | Await q k => let (db', o) := exec X db q in run X (k o) db'
  end.

(** The routes are those of the application without authentication. *)
Definition app : Collaborators -> Route -> option (Request -> Prog Response) := Open.app.

End Lite.

(** ** The application that keeps its employees in an array *)

(** The application with the four routes POST /employees and GET, PUT and
    DELETE /employees/:id over one array: no store, no schema, no
    credentials; the employees are the objects of the array.  [parseInt] is
    JavaScript's, [None] standing for [NaN].  (The shorter application that
    has the POST route alone answers with another text and is not modelled
    here.) *)
Module Memory.

(** An object: its properties in insertion order, [None] for a property that
    holds [undefined]. *)
Definition Employee : Type := list (string * option json).

(** [e.key] *)
Definition prop (key : string) (e : Employee) : option json :=
  match assoc key e with
  | Some v => v
  | None => None
  end.

Definition has_key (key : string) (e : Employee) : bool :=
  match assoc key e with
  | Some _ => true
  | None => false
  end.

(** [let employees = [{ id: 1, name: "Ali", position: "Manager" }]] *)
Definition employees : list Employee :=
  [[("id", Some (JNum 1)); ("name", Some (JStr "Ali")); ("position", Some (JStr "Manager"))]].

(** What [res.send] was given: a text, or an object (sent as JSON). *)
Inductive Sent : Type :=
| Text (s : string)
| Object (e : Employee).

Record Answer : Type := { code : Z; sent : Sent }.

(** A handler answers, or throws a [TypeError] before it does. *)
Inductive Result : Type :=
| Answered (a : Answer)
| TypeError.

(** [req.body.key]: a [TypeError] ([None]) when the body is [undefined] or
    [null], [undefined] when the body has no such property. *)
Definition member (key : string) (b : option json) : option (option json) :=
  match b with
  | None | Some JNull => None
  | Some v => Some (get key v)
  end.

Fixpoint indexed (i : nat) (items : list json) : Employee :=
  match items with
  | [] => []
  | v :: rest => (decimal (Z.of_nat i), Some v) :: indexed (S i) rest
  end.

(** The properties [...b] copies: those of an object, the elements of an
    array under their indices, none of [undefined], [null], a number or a
    boolean.  ([express.json()] yields objects and arrays only.) *)
Definition own (b : option json) : Employee :=
  match b with
  | Some (JObj fields) => map (fun kv => (fst kv, Some (snd kv))) fields
  | Some (JArr items) => indexed 0 items
  | _ => []
  end.

(** [{ ...e, ...updates }]: the properties of [e] in their places, with the
    value [updates] has for them when it has one, then the properties only
    [updates] has. *)
Definition merge (e updates : Employee) : Employee :=
  (map (fun kv => (fst kv, match assoc (fst kv) updates with
                           | Some v => v
                           | None => snd kv
                           end)) e
   ++ filter (fun kv => negb (has_key (fst kv) e)) updates)%list.

(** [l.findIndex(f)], [None] for -1. *)
Fixpoint findIndex {A : Type} (f : A -> bool) (l : list A) : option nat :=
  match l with
  | [] => None
  | a :: rest => if f a then Some O else option_map S (findIndex f rest)
  end.

(** [l[i] = a] for an index within the array. *)
Fixpoint assign {A : Type} (i : nat) (a : A) (l : list A) : list A :=
  match l, i with
  | [], _ => []
  | _ :: rest, O => a :: rest
  | b :: rest, S j => b :: assign j a rest
  end.

Section Routes.

Variable parseInt : string -> option Z.

(** [emp.id === id] for the number (or [NaN]) [parseInt] gave. *)
Definition id_is (id : option Z) (emp : Employee) : bool :=
  match prop "id" emp, id with
  | Some (JNum n), Some m => n =? m
  | _, _ => false
  end.

Definition post_employees (store : list Employee) (req : Request)
  : list Employee * Result :=
  match member "name" (body req), member "position" (body req) with
  | Some n, Some p =>
      let newEmployee :=
        [("id", Some (JNum (Z.of_nat (List.length store) + 1)));
         ("name", n); ("position", p)] in
      ((store ++ [newEmployee])%list, Answered {| code := 200; sent := Text "Employee added!" |})
  | _, _ => (store, TypeError)
  end.

Definition get_employee (store : list Employee) (req : Request)
  : list Employee * Result :=
  let id := parseInt (params_id req) in
  match find (id_is id) store with
  | None => (store, Answered {| code := 404; sent := Text "Employee not found" |})
  | Some employee => (store, Answered {| code := 200; sent := Object employee |})
  end.

Definition put_employee (store : list Employee) (req : Request)
  : list Employee * Result :=
  let id := parseInt (params_id req) in
  match findIndex (id_is id) store with
  | None => (store, Answered {| code := 404; sent := Text "Employee not found" |})
  | Some employeeIndex =>
      let merged := merge (nth employeeIndex store []) (own (body req)) in
      (assign employeeIndex merged store,
       Answered {| code := 200; sent := Object merged |})
  end.

Definition delete_employee (store : list Employee) (req : Request)
  : list Employee * Result :=
  let id := parseInt (params_id req) in
  let initialLength := List.length store in
  let kept := filter (fun emp => negb (id_is id emp)) store in
  if Nat.eqb (List.length kept) initialLength
  then (kept, Answered {| code := 404; sent := Text "Employee not found" |})
  else (kept, Answered {| code := 200; sent := Text "Employee deleted successfully" |}).

End Routes.

End Memory.

(** ** A second engine for examples *)

(** The digits [s] starts with. *)
Fixpoint leading_digits (s : string) : string :=
  match s with
  | EmptyString => EmptyString
  | String c rest =>
      if (Nat.leb 48 (nat_of_ascii c) && Nat.leb (nat_of_ascii c) 57)%bool
      then String c (leading_digits rest)
      else EmptyString
  end.

(** The libraries of [Sample.libs] with an engine that reads the number a
    string starts with and ignores what follows it, where the engine of
    [Sample.libs] takes a string for a number only as a whole. *)
Definition prefix_libs : Collaborators :=
  {| zod_email := zod_email Sample.libs;
     zod_message := zod_message Sample.libs;
     bcrypt_hash := bcrypt_hash Sample.libs;
     bcrypt_compare := bcrypt_compare Sample.libs;
     jwt_sign := jwt_sign Sample.libs;
     jwt_verify := jwt_verify Sample.libs;
     sql_int_eq := fun id s => match undecimal (leading_digits s) with
                               | Some n => id =? n
                               | None => false
                               end;
     sql_str_eq := sql_str_eq Sample.libs |}.

(** ** Further observations *)

(** The character [c] does not occur in [s]. *)
Fixpoint lacks (c : ascii) (s : string) : bool :=
  match s with
  | EmptyString => true
  | String a rest => negb (Ascii.eqb a c) && lacks c rest
  end.

(** A row the employee schema and the columns both allow. *)
Definition row_valid (e : EmployeeRow) : bool :=
  (2 <=? strlen (emp_name e)) && (strlen (emp_name e) <=? 255)
  && (2 <=? strlen (emp_position e)) && (strlen (emp_position e) <=? 255).

Definition rows_valid (db : Db) : bool := forallb row_valid (employees db).

(** No two rows of [employees] share an id. *)
Definition ids_unique (db : Db) : Prop := NoDup (map emp_id (employees db)).

(** The statuses a route answers with. *)
Definition statuses (r : Route) : list Z :=
  match r with
  | POST_login => [200; 400; 401; 500]
  | POST_register => [201; 409; 500]
  | POST_employees => [201; 400; 401]
  | GET_employees => [200; 500]
  | GET_employee => [200; 404; 500]
  | PUT_employee => [200; 400; 401; 404]
  | DELETE_employee => [200; 400; 401; 404; 500]
  end.

(** * Properties *)

(** ** Strings, columns and schemas *)

Lemma substring_whole (s : string) (n : nat) :
  (String.length s <= n)%nat -> substring 0 n s = s.
Proof.
  revert n; induction s as [|c s IH]; intros [|n] H; simpl in *; try reflexivity.
  - lia.
  - rewrite IH by lia; reflexivity.
Qed.

Lemma truncate_fits (s : string) : fits s = true -> truncate s = s.
Proof.
  unfold fits, truncate, strlen, varchar; intros H.
  apply Z.leb_le in H. apply substring_whole. lia.
Qed.

Lemma fits_bound (s : string) : strlen s <= 255 -> fits s = true.
Proof. intros H; unfold fits, varchar; apply Z.leb_le; exact H. Qed.

Lemma count_filter_zero {A : Type} (f : A -> bool) (rows : list A) :
  (count (filter f rows) =? 0) = negb (existsb f rows).
Proof.
  induction rows as [|r rows IH]; simpl; [reflexivity|].
  destruct (f r); simpl; [reflexivity | exact IH].
Qed.

Lemma filter_nil_existsb {A : Type} (f : A -> bool) (rows : list A) :
  filter f rows = [] <-> existsb f rows = false.
Proof.
  induction rows as [|r rows IH]; simpl; [tauto|].
  destruct (f r); simpl; [split; discriminate | exact IH].
Qed.

Section Facts.

Variable X : Collaborators.

Lemma store2_fits (db : Db) (c1 v1 c2 v2 : string) :
  fits v1 = true -> fits v2 = true -> store2 db c1 v1 c2 v2 = inr (v1, v2).
Proof.
  intros H1 H2; unfold store2; rewrite H1, H2; simpl.
  rewrite !truncate_fits by assumption; reflexivity.
Qed.

(** What [employeeSchema] accepts: an object whose [name] and [position] are
    strings of at least two characters. *)
Lemma employeeSchema_accepts (fields : list (string * json)) (n p : string) :
  assoc "name" fields = Some (JStr n) ->
  assoc "position" fields = Some (JStr p) ->
  2 <= strlen n -> 2 <= strlen p ->
  employeeSchema X (Some (JObj fields)) = inr {| name := n; position := p |}.
Proof.
  intros Hn Hp Ln Lp; unfold employeeSchema, zobject, zstring.
  rewrite Hn, Hp; simpl.
  destruct (Z.ltb_spec (strlen n) 2); [lia|].
  destruct (Z.ltb_spec (strlen p) 2); [lia|]. reflexivity.
Qed.

(** Behind [authenticate] the handler sees the same body and path
    parameter. *)
Lemma authorized_next (req : Request) :
  authorized X req = true ->
  exists decoded,
    authenticate X req =
    Next {| authorization := authorization req; body := body req;
            params_id := params_id req; user := Some decoded |}.
Proof.
  unfold authorized, authenticate.
  destruct (bearer (authorization req)); [|discriminate].
  destruct (jwt_verify X s); [|discriminate].
  intros _; eexists; reflexivity.
Qed.

(** Every handler answers: no route lets an exception escape. *)
Lemma app_answers (r : Route) (req : Request) (db : Db) :
  exists db' response, serve X r req db = (db', Resolved response).
Proof.
  assert (Hst : forall db c1 v1 c2 v2, store2 db c1 v1 c2 v2 = inl (too_long c1)
              \/ store2 db c1 v1 c2 v2 = inl (too_long c2)
              \/ store2 db c1 v1 c2 v2 = inr (truncate v1, truncate v2)).
  { intros; unfold store2.
    destruct (negb (fits v1) && strict db0); [tauto|].
    destruct (negb (fits v2) && strict db0); tauto. }
  unfold serve.
  destruct r; unfold app, protected;
    try (match goal with
         | |- context [authenticate X req] =>
             destruct (authenticate X req) as [resp|req']; [simpl; eauto|]
         end);
    unfold post_login, post_register, post_employees, get_employees, get_employee,
      put_employee, delete_employee.
  - destruct (loginSchema X (body req)) as [errs|c]; simpl; [eauto|].
    unfold exec; destruct (outage db); simpl; [eauto|].
    destruct (filter _ _) as [|u us]; simpl; [eauto|].
    destruct (bcrypt_compare X _ _); simpl; [|eauto].
    destruct (jwt_sign X _); simpl; eauto.
  - destruct (userSchema X (body req)) as [errs|c]; simpl; [eauto|].
    unfold exec; destruct (outage db) eqn:Ho; simpl; [eauto|].
    destruct (filter _ _) as [|u us]; simpl; [|eauto].
    unfold exec; rewrite Ho; simpl.
    destruct (Hst db "email" (email c) "password" (bcrypt_hash X (password c)))
      as [E|[E|E]]; rewrite E; simpl; eauto.
    destruct (existsb _ _); simpl; eauto.
  - destruct (employeeSchema X (body req')) as [errs|d]; simpl; [eauto|].
    unfold exec; destruct (outage db); simpl; [eauto|].
    destruct (Hst db "name" (name d) "position" (position d))
      as [E|[E|E]]; rewrite E; simpl; eauto.
  - simpl; unfold exec; destruct (outage db); simpl; eauto.
  - simpl; unfold exec; destruct (outage db); simpl; [eauto|].
    destruct (filter _ _); simpl; eauto.
  - destruct (employeeSchema X (body req')) as [errs|d]; simpl; [eauto|].
    unfold exec; destruct (outage db); simpl; [eauto|].
    destruct (existsb _ _); simpl; [|eauto].
    destruct (Hst db "name" (name d) "position" (position d))
      as [E|[E|E]]; rewrite E; simpl; eauto.
    destruct (count _ =? 0); simpl; eauto.
  - simpl; unfold exec; destruct (outage db); simpl; [eauto|].
    destruct (count _ =? 0); simpl; eauto.
Qed.

End Facts.

Section Failures.

Variable X : Collaborators.

Lemma exec_outage (db : Db) (message : string) {T : Type} (q : Sql T) :
  outage db = Some message -> exec X db q = (db, Rejected (JsError message)).
Proof. intros H; unfold exec; rewrite H; reflexivity. Qed.

Lemma exec_available (db : Db) {T : Type} (q : Sql T) :
  outage db = None -> exec X db q = exec_up X db q.
Proof. intros H; unfold exec; rewrite H; reflexivity. Qed.

(** *** Validation failures, route by route *)

(** POST /register answers any body its schema refuses with 500: its [catch]
    has no case for [ZodError]. *)
Lemma register_validation_failure (req : Request) (db : Db) (errors : list ZodIssue) :
  userSchema X (body req) = inl errors ->
  serve X POST_register req db
  = (db, Resolved (respond 500 (error_body "Registration failed"))).
Proof.
  intros H; unfold serve; simpl; unfold post_register; rewrite H; reflexivity.
Qed.

(** POST /login, next to it, answers 400 with the issues. *)
Lemma login_validation_failure (req : Request) (db : Db) (errors : list ZodIssue) :
  loginSchema X (body req) = inl errors ->
  serve X POST_login req db
  = (db, Resolved (respond 400 (JObj [("error", JStr "Validation error");
                                      ("details", issues_json errors)]))).
Proof.
  intros H; unfold serve; simpl; unfold post_login; rewrite H; reflexivity.
Qed.

(** A password under six characters never passes [userSchema], whatever the
    e-mail pattern says of the address. *)
Lemma userSchema_short_password (fields : list (string * json)) (p : string) :
  assoc "password" fields = Some (JStr p) ->
  strlen p < 6 ->
  exists errors, userSchema X (Some (JObj fields)) = inl errors.
Proof.
  intros Hp Hlen; unfold userSchema, zobject.
  destruct (zstring X [Email] ["email"] (assoc "email" fields)) as [e1|a];
    unfold zstring at 1; rewrite Hp; simpl;
    destruct (Z.ltb_spec (strlen p) 6); try lia; simpl; eauto.
Qed.

(** *** Storage failures, route by route *)

Lemma login_storage_failure (req : Request) (db : Db) (message : string) (c : Credentials) :
  outage db = Some message ->
  loginSchema X (body req) = inr c ->
  serve X POST_login req db = (db, Resolved (respond 500 (error_body "Login failed"))).
Proof.
  intros Ho Hc; unfold serve; simpl; unfold post_login; rewrite Hc; simpl.
  rewrite (exec_outage _ _ _ Ho); reflexivity.
Qed.

Lemma register_storage_failure (req : Request) (db : Db) (message : string) (c : Credentials) :
  outage db = Some message ->
  userSchema X (body req) = inr c ->
  serve X POST_register req db
  = (db, Resolved (respond 500 (error_body "Registration failed"))).
Proof.
  intros Ho Hc; unfold serve; simpl; unfold post_register; rewrite Hc; simpl.
  rewrite (exec_outage _ _ _ Ho); reflexivity.
Qed.

(** With a valid body, POST and PUT /employees answer a storage failure with
    400 and the error's own message. *)
Lemma employee_write_storage_failure (req : Request) (db : Db) (message : string)
    (d : EmployeeData) :
  outage db = Some message ->
  employeeSchema X (body req) = inr d ->
  run X (post_employees X req) db = (db, Resolved (respond 400 (error_body message)))
  /\ run X (put_employee X req) db = (db, Resolved (respond 400 (error_body message))).
Proof.
  intros Ho Hd; unfold post_employees, put_employee; rewrite Hd; simpl.
  rewrite !(exec_outage _ _ _ Ho); split; reflexivity.
Qed.

(** GET and DELETE answer it with 500, and the error's own message too. *)
Lemma employee_read_storage_failure (req : Request) (db : Db) (message : string) :
  outage db = Some message ->
  serve X GET_employees req db = (db, Resolved (respond 500 (error_body message)))
  /\ serve X GET_employee req db = (db, Resolved (respond 500 (error_body message)))
  /\ run X (delete_employee X req) db = (db, Resolved (respond 500 (error_body message))).
Proof.
  intros Ho; unfold serve, app, get_employees, get_employee, delete_employee; simpl.
  rewrite !(exec_outage _ _ _ Ho); repeat split; reflexivity.
Qed.

End Failures.

(** ** Registration with a body the schema refuses *)

(** C1.  The specification promises 400 with a validation error for a
    registration whose body fails credential validation.  The handler does
    not: for the body [{email: "a@b.com", password: "abc"}] (a password of
    three characters), with any libraries and any store, POST /register
    answers 500 "Registration failed" and leaves the store as it was.  (The
    login handler next to it answers such a body with 400, see
    [login_validation_failure].) *)
Theorem register_short_password_answers_500 (X : Collaborators) (db : Db) :
  serve X POST_register (Sample.request None (Sample.credentials_body "a@b.com" "abc") "") db
  = (db, Resolved (respond 500 (error_body "Registration failed"))).
Proof.
  destruct (userSchema_short_password X
              [("email", JStr "a@b.com"); ("password", JStr "abc")] "abc")
    as [errors H]; [reflexivity | reflexivity |].
  apply register_validation_failure with (errors := errors). exact H.
Qed.

(** ** Tokens that fail verification *)

(** C2 (as amended).  On every protected route, a request whose bearer token
    fails verification, whichever error [jwt.verify] throws (expired,
    ill-signed or malformed, not yet valid), is answered 400 with the body
    [{error: "Invalid token"}], the same for all of them, and the store is
    not touched.  (401 answers a request with no token.) *)
Theorem unverified_token_answers_400 (X : Collaborators) (r : Route) (req : Request)
    (token : string) (e : JwtError) (db : Db) :
  is_protected r = true ->
  bearer (authorization req) = Some token ->
  jwt_verify X token = VerifyThrew e ->
  serve X r req db = (db, Resolved (respond 400 (error_body "Invalid token"))).
Proof.
  intros Hr Hb Hv; unfold serve.
  destruct r; try discriminate Hr; simpl;
    unfold protected, authenticate; rewrite Hb, Hv; reflexivity.
Qed.

Lemma unverified_token_answers_400_witness :
  serve Sample.libs PUT_employee
    (Sample.request (Some "Bearer stale") (Sample.employee_body "Ali" "Manager") "1")
    Sample.one_employee
  = (Sample.one_employee, Resolved (respond 400 (error_body "Invalid token"))).
Proof.
  apply (unverified_token_answers_400 Sample.libs PUT_employee _ "stale" TokenExpiredError);
    reflexivity.
Defined.

(** C2, as the specification states it, does not hold: an expired token on PUT /employees/1 is
    answered 400, not 401, and so is a token with a bad signature. *)
Lemma unverified_token_is_not_401 :
  jwt_verify Sample.libs "stale" = VerifyThrew TokenExpiredError
  /\ answer_status
       (serve Sample.libs PUT_employee
          (Sample.request (Some "Bearer stale") (Sample.employee_body "Ali" "Manager") "1")
          Sample.one_employee) = Some 400
  /\ jwt_verify Sample.libs "tampered" = VerifyThrew JsonWebTokenError
  /\ answer_status
       (serve Sample.libs PUT_employee
          (Sample.request (Some "Bearer tampered") (Sample.employee_body "Ali" "Manager") "1")
          Sample.one_employee) = Some 400
  /\ Some 400 <> Some 401.
Proof. repeat split; try reflexivity. discriminate. Qed.

(** The missing token is the one case answered 401. *)
Lemma missing_token_answers_401 (X : Collaborators) (r : Route) (req : Request) (db : Db) :
  is_protected r = true ->
  bearer (authorization req) = None ->
  serve X r req db = (db, Resolved (respond 401 (error_body "Access denied"))).
Proof.
  intros Hr Hb; unfold serve.
  destruct r; try discriminate Hr; simpl;
    unfold protected, authenticate; rewrite Hb; reflexivity.
Qed.

(** ** Storage failures *)

(** C5.  The specification promises a 500 with a fixed message when the
    store fails.  With the store unreachable (every query rejected with
    "connect ECONNREFUSED 127.0.0.1:3306"), an authorized POST /employees
    with the valid body [{name: "Jo", position: "Eng"}] is answered 400, and
    the body carries the error's own message; GET /employees/1 is answered
    500, again with the error's own message.  (The login and registration
    handlers answer 500 with a fixed text, see [login_storage_failure] and
    [register_storage_failure].) *)
Theorem storage_failure_answers_with_raw_message :
  let down := Sample.unreachable Sample.empty "connect ECONNREFUSED 127.0.0.1:3306" in
  serve Sample.libs POST_employees
    (Sample.request (Some "Bearer good") (Sample.employee_body "Jo" "Eng") "") down
  = (down, Resolved (respond 400 (error_body "connect ECONNREFUSED 127.0.0.1:3306")))
  /\ serve Sample.libs GET_employee (Sample.request None None "1") down
     = (down, Resolved (respond 500 (error_body "connect ECONNREFUSED 127.0.0.1:3306"))).
Proof. split; reflexivity. Qed.

(** ** Login does not tell whether an address is registered *)

(** C9.  Take two login requests whose bodies pass the schema, against
    available stores: one for an address the store has no row for, one for
    an address it has a row for, with a password the stored digest does not
    match.  Both get the same answer, 401 with
    [{error: "Invalid credentials"}], and neither changes the store. *)
Theorem login_same_answer_for_unknown_and_wrong_password (X : Collaborators)
    (unknown known : Request) (c1 c2 : Credentials) (db1 db2 : Db) (u : UserRow)
    (others : list UserRow) :
  loginSchema X (body unknown) = inr c1 ->
  loginSchema X (body known) = inr c2 ->
  outage db1 = None ->
  outage db2 = None ->
  filter (email_is X (email c1)) (users db1) = [] ->
  filter (email_is X (email c2)) (users db2) = u :: others ->
  bcrypt_compare X (password c2) (user_password u) = false ->
  snd (serve X POST_login unknown db1) = snd (serve X POST_login known db2)
  /\ serve X POST_login unknown db1
     = (db1, Resolved (respond 401 (error_body "Invalid credentials")))
  /\ serve X POST_login known db2
     = (db2, Resolved (respond 401 (error_body "Invalid credentials"))).
Proof.
  intros Hc1 Hc2 Ho1 Ho2 Hnone Hsome Hpw; unfold serve; simpl; unfold post_login.
  rewrite Hc1, Hc2; simpl.
  rewrite !exec_available by assumption; simpl.
  rewrite Hnone, Hsome; simpl. rewrite Hpw; simpl. repeat split; reflexivity.
Qed.

Lemma login_same_answer_witness :
  let registered :=
    {| users := [{| user_id := 1; user_email := "a@b.com";
                    user_password := Sample.hash "secret1" |}];
       employees := []; users_auto := 2; employees_auto := 1;
       strict := true; outage := None |} in
  let unknown := Sample.request None (Sample.credentials_body "c@d.com" "secret1") "" in
  let known := Sample.request None (Sample.credentials_body "a@b.com" "guess") "" in
  snd (serve Sample.libs POST_login unknown registered)
  = snd (serve Sample.libs POST_login known registered)
  /\ serve Sample.libs POST_login unknown registered
     = (registered, Resolved (respond 401 (error_body "Invalid credentials")))
  /\ serve Sample.libs POST_login known registered
     = (registered, Resolved (respond 401 (error_body "Invalid credentials"))).
Proof.
  intros registered unknown known.
  apply (login_same_answer_for_unknown_and_wrong_password Sample.libs unknown known
           {| email := "c@d.com"; password := "secret1" |}
           {| email := "a@b.com"; password := "guess" |} registered registered
           {| user_id := 1; user_email := "a@b.com";
              user_password := Sample.hash "secret1" |} []);
    reflexivity.
Defined.

(** ** Employees: replace, create and read back *)

Section Employees.

Variable X : Collaborators.

Lemma with_employees_same (db : Db) :
  with_employees db (employees db) (employees_auto db) = db.
Proof. destruct db; reflexivity. Qed.

Lemma set_employee_same (e : EmployeeRow) :
  set_employee (emp_name e) (emp_position e) e = e.
Proof. destruct e; reflexivity. Qed.

(** Rewriting the rows an id selects with the values they already hold
    changes nothing. *)
Lemma update_same_values (id n p : string) (rows : list EmployeeRow) :
  (forall e, In e rows -> id_is X id e = true -> emp_name e = n /\ emp_position e = p) ->
  map (fun e => if id_is X id e then set_employee n p e else e) rows = rows.
Proof.
  induction rows as [|r rows IH]; intros H; simpl; [reflexivity|].
  rewrite IH by (intros e He; apply H; right; exact He).
  destruct (id_is X id r) eqn:Hr; [|reflexivity].
  destruct (H r (or_introl eq_refl) Hr) as [<- <-].
  rewrite set_employee_same; reflexivity.
Qed.

Lemma update_holds_values (id n p : string) (rows : list EmployeeRow) (e : EmployeeRow) :
  In e (map (fun e => if id_is X id e then set_employee n p e else e) rows) ->
  id_is X id e = true ->
  emp_name e = n /\ emp_position e = p.
Proof.
  intros Hin He; apply in_map_iff in Hin; destruct Hin as [r [Hr _]].
  destruct (id_is X id r) eqn:Hid; subst e; [split; reflexivity|].
  rewrite Hid in He; discriminate.
Qed.

(** The PUT handler once past [authenticate], on a body the schema accepts
    and the columns hold. *)
Lemma put_employee_run (req : Request) (db : Db) (fields : list (string * json))
    (n p : string) :
  outage db = None ->
  body req = Some (JObj fields) ->
  assoc "name" fields = Some (JStr n) ->
  assoc "position" fields = Some (JStr p) ->
  2 <= strlen n <= 255 ->
  2 <= strlen p <= 255 ->
  run X (put_employee X req) db =
  if existsb (id_is X (params_id req)) (employees db)
  then (with_employees db
          (map (fun e => if id_is X (params_id req) e then set_employee n p e else e)
             (employees db))
          (employees_auto db),
        Resolved (respond 200 (JObj [("id", JStr (params_id req)); ("name", JStr n);
                                     ("position", JStr p)])))
  else (db, Resolved (respond 404 (error_body "Employee not found"))).
Proof.
  intros Ho Hb Hn Hp Ln Lp; unfold put_employee.
  rewrite Hb, (employeeSchema_accepts X fields n p Hn Hp) by lia; simpl.
  rewrite exec_available by assumption; simpl.
  destruct (existsb (id_is X (params_id req)) (employees db)) eqn:Hfound; simpl.
  - rewrite store2_fits by (apply fits_bound; lia); simpl.
    rewrite count_filter_zero, Hfound; reflexivity.
  - reflexivity.
Qed.

(** The POST handler once past [authenticate], likewise. *)
Lemma post_employees_run (req : Request) (db : Db) (fields : list (string * json))
    (n p : string) :
  outage db = None ->
  body req = Some (JObj fields) ->
  assoc "name" fields = Some (JStr n) ->
  assoc "position" fields = Some (JStr p) ->
  2 <= strlen n <= 255 ->
  2 <= strlen p <= 255 ->
  run X (post_employees X req) db =
  (with_employees db
     (employees db ++ [{| emp_id := employees_auto db; emp_name := n; emp_position := p |}])
     (employees_auto db + 1),
   Resolved (respond 201 (JObj [("id", JNum (employees_auto db)); ("name", JStr n);
                                ("position", JStr p)]))).
Proof.
  intros Ho Hb Hn Hp Ln Lp; unfold post_employees.
  rewrite Hb, (employeeSchema_accepts X fields n p Hn Hp) by lia; simpl.
  rewrite exec_available by assumption; simpl.
  rewrite store2_fits by (apply fits_bound; lia); reflexivity.
Qed.

End Employees.

(** Past [authenticate], a protected handler runs on a request with the same
    body and path parameter. *)
Lemma protected_authorized (X : Collaborators) (handler : Request -> Prog Response)
    (req : Request) :
  authorized X req = true ->
  exists req', body req' = body req /\ params_id req' = params_id req
               /\ protected X handler req = handler req'.
Proof.
  intros H; destruct (authorized_next X req H) as [decoded E].
  exists {| authorization := authorization req; body := body req;
            params_id := params_id req; user := Some decoded |}.
  unfold protected; rewrite E; simpl; repeat split; reflexivity.
Qed.

(** C3 (as amended).  An authorized PUT /employees/:id whose body holds a
    name and a position of 2 to 255 characters each (what the schema asks
    and what the columns hold), against an available store:
    when a row has that id, the answer is 200 with the record
    [{id, name, position}], every row with that id holds the new values
    afterwards, and when they were the stored values already the request
    still succeeds and the store is as before; the answer is 404
    "Employee not found" exactly when no row has that id. *)
Theorem replace_succeeds_on_present_id (X : Collaborators) (req : Request) (db : Db)
    (fields : list (string * json)) (n p : string) :
  outage db = None ->
  authorized X req = true ->
  body req = Some (JObj fields) ->
  assoc "name" fields = Some (JStr n) ->
  assoc "position" fields = Some (JStr p) ->
  2 <= strlen n <= 255 ->
  2 <= strlen p <= 255 ->
  let id := params_id req in
  let holds (rows : list EmployeeRow) :=
    forall e, In e rows -> id_is X id e = true -> emp_name e = n /\ emp_position e = p in
  (existsb (id_is X id) (employees db) = true ->
   exists db',
     serve X PUT_employee req db
     = (db', Resolved (respond 200 (JObj [("id", JStr id); ("name", JStr n);
                                          ("position", JStr p)])))
     /\ holds (employees db')
     /\ (holds (employees db) -> db' = db))
  /\ (existsb (id_is X id) (employees db) = false ->
      serve X PUT_employee req db
      = (db, Resolved (respond 404 (error_body "Employee not found")))).
Proof.
  intros Ho Ha Hb Hn Hp Ln Lp id holds.
  destruct (protected_authorized X (put_employee X) req Ha) as [req' [Eb [Ei E]]].
  unfold serve; simpl; rewrite E.
  rewrite (put_employee_run X req' db fields n p) by (congruence || assumption).
  rewrite Ei; fold id; split; intros Hfound; rewrite Hfound.
  - eexists; split; [reflexivity|]; split; simpl.
    + intros e; apply update_holds_values.
    + intros Hsame. rewrite update_same_values by exact Hsame.
      apply with_employees_same.
  - reflexivity.
Qed.

Lemma replace_succeeds_on_present_id_witness :
  serve Sample.libs PUT_employee
    (Sample.request (Some "Bearer good") (Sample.employee_body "Ali" "Manager") "1")
    Sample.one_employee
  = (Sample.one_employee,
     Resolved (respond 200 (JObj [("id", JStr "1"); ("name", JStr "Ali");
                                  ("position", JStr "Manager")]))).
Proof.
  assert (Hlen : forall s, s = "Ali" \/ s = "Manager" -> 2 <= strlen s <= 255)
    by (intros s [->| ->]; unfold strlen; simpl; lia).
  pose proof (replace_succeeds_on_present_id Sample.libs
                (Sample.request (Some "Bearer good")
                   (Sample.employee_body "Ali" "Manager") "1")
                Sample.one_employee
                [("name", JStr "Ali"); ("position", JStr "Manager")] "Ali" "Manager"
                eq_refl eq_refl eq_refl eq_refl eq_refl
                (Hlen _ (or_introl eq_refl)) (Hlen _ (or_intror eq_refl)))
    as [Hpresent _].
  destruct (Hpresent eq_refl) as [db' [E [_ Hsame]]].
  rewrite E; f_equal; apply Hsame.
  intros e [<-|[]] _; split; reflexivity.
Defined.

(** C3, as the specification states it, does not hold for a name of 256
    characters on the id of a stored employee (position "Manager").  In a
    strict session the UPDATE is refused: PUT /employees/1 answers 400 and
    the row is as before.  In a session that is not strict PUT answers 200
    with the 256 characters, and the row holds the name cut to 255: the
    record returned is not the record stored. *)
Lemma replace_long_name_not_stored :
  let long := Sample.letters 256 in
  let req := Sample.request (Some "Bearer good") (Sample.employee_body long "Manager") "1" in
  let lenient :=
    {| users := [];
       employees := [{| emp_id := 1; emp_name := "Ali"; emp_position := "Manager" |}];
       users_auto := 1; employees_auto := 2; strict := false; outage := None |} in
  let stored :=
    {| users := [];
       employees := [{| emp_id := 1; emp_name := Sample.letters 255;
                        emp_position := "Manager" |}];
       users_auto := 1; employees_auto := 2; strict := false; outage := None |} in
  existsb (id_is Sample.libs "1") (employees Sample.one_employee) = true
  /\ 2 <= strlen long
  /\ serve Sample.libs PUT_employee req Sample.one_employee
     = (Sample.one_employee,
        Resolved (respond 400 (error_body "Data too long for column 'name' at row 1")))
  /\ serve Sample.libs PUT_employee req lenient
     = (stored,
        Resolved (respond 200 (JObj [("id", JStr "1"); ("name", JStr long);
                                     ("position", JStr "Manager")])))
  /\ Sample.letters 255 <> long.
Proof.
  cbv zeta; repeat split; try (vm_compute; reflexivity).
  - vm_compute; discriminate.
  - intros H; apply (f_equal String.length) in H; vm_compute in H; discriminate.
Qed.

(** C10.  Whenever PUT /employees/:id answers 200, the [id] of the body is
    the path parameter, the string as it came; whenever POST /employees
    answers 201, the [id] of the body is the number the store assigned to the
    new row. *)
Theorem update_id_is_param_string_create_id_is_number (X : Collaborators)
    (req : Request) (db db' : Db) (r : Response) :
  (serve X PUT_employee req db = (db', Resolved r) ->
   status r = 200 ->
   get "id" (payload r) = Some (JStr (params_id req)))
  /\ (serve X POST_employees req db = (db', Resolved r) ->
      status r = 201 ->
      get "id" (payload r) = Some (JNum (employees_auto db))
      /\ exists row, In row (employees db') /\ emp_id row = employees_auto db).
Proof.
  unfold serve; simpl; unfold protected, authenticate.
  destruct (bearer (authorization req)) as [token|];
    [destruct (jwt_verify X token) as [decoded|e]|];
    simpl; try (split; intros H; inversion H; subst; simpl; discriminate).
  split.
  - unfold put_employee; simpl.
    destruct (employeeSchema X (body req)) as [errors|d]; simpl;
      [intros H; inversion H; subst; discriminate|].
    unfold exec; destruct (outage db); simpl;
      [intros H; inversion H; subst; discriminate|].
    destruct (existsb _ _); simpl;
      [|intros H; inversion H; subst; discriminate].
    destruct (store2 db "name" (name d) "position" (position d)) as [[| |]|[n' p']];
      simpl; try (intros H; inversion H; subst; discriminate).
    destruct (count _ =? 0); simpl; intros H; inversion H; subst; simpl;
      [discriminate | reflexivity].
  - unfold post_employees; simpl.
    destruct (employeeSchema X (body req)) as [errors|d]; simpl;
      [intros H; inversion H; subst; discriminate|].
    unfold exec; destruct (outage db); simpl;
      [intros H; inversion H; subst; discriminate|].
    destruct (store2 db "name" (name d) "position" (position d)) as [[| |]|[n' p']];
      simpl; intros H; inversion H; subst; simpl; try discriminate.
    intros _; split; [reflexivity|].
    eexists; split; [apply in_or_app; right; left; reflexivity | reflexivity].
Qed.

Lemma update_id_is_param_string_witness :
  let put := Sample.request (Some "Bearer good") (Sample.employee_body "Al" "Boss") "1" in
  let post := Sample.request (Some "Bearer good") (Sample.employee_body "Jo" "Eng") "" in
  get "id" (payload (respond 200 (JObj [("id", JStr "1"); ("name", JStr "Al");
                                        ("position", JStr "Boss")])))
  = Some (JStr (params_id put))
  /\ get "id" (payload (respond 201 (JObj [("id", JNum 2); ("name", JStr "Jo");
                                           ("position", JStr "Eng")])))
     = Some (JNum (employees_auto Sample.one_employee)).
Proof.
  intros put post; split.
  - apply (proj1 (update_id_is_param_string_create_id_is_number Sample.libs put
                    Sample.one_employee
                    (fst (serve Sample.libs PUT_employee put Sample.one_employee))
                    (respond 200 (JObj [("id", JStr "1"); ("name", JStr "Al");
                                        ("position", JStr "Boss")]))));
      reflexivity.
  - apply (proj2 (update_id_is_param_string_create_id_is_number Sample.libs post
                    Sample.one_employee
                    (fst (serve Sample.libs POST_employees post Sample.one_employee))
                    (respond 201 (JObj [("id", JNum 2); ("name", JStr "Jo");
                                        ("position", JStr "Eng")]))));
      reflexivity.
Defined.

(** ** Validation of an employee body *)

Lemma zstring_min2 (X : Collaborators) (message key : string) (v : option json) :
  match zstring X [Min 2 message] [key] v with
  | inl errors =>
      match v with
      | Some (JStr s) => strlen s <? 2
      | _ => true
      end = true
      /\ exists i, errors = [i] /\ issue_path i = [key]
  | inr s => v = Some (JStr s) /\ (strlen s <? 2) = false
  end.
Proof.
  unfold zstring.
  destruct v as [[| | |s| |]|]; simpl; try (split; [reflexivity | eexists; split; reflexivity]).
  destruct (strlen s <? 2) eqn:E; simpl.
  - split; [reflexivity || exact E | eexists; split; reflexivity].
  - split; [reflexivity | reflexivity || exact E].
Qed.



(** A request that [authenticate] stops does not reach validation: the
    same body with no Authorization header is answered 401 before the body
    is looked at, and with a token that does not verify it is answered 400
    "Invalid token", with no [details]. *)
Lemma put_invalid_body_unauthenticated :
  employeeSchema Sample.libs (Sample.employee_body "A" "Eng")
  = inl [too_small 2 "Name must be at least 2 characters" ["name"]]
  /\ serve Sample.libs PUT_employee
       (Sample.request None (Sample.employee_body "A" "Eng") "1") Sample.one_employee
     = (Sample.one_employee, Resolved (respond 401 (error_body "Access denied")))
  /\ serve Sample.libs PUT_employee
       (Sample.request (Some "Bearer tampered") (Sample.employee_body "A" "Eng") "1")
       Sample.one_employee
     = (Sample.one_employee, Resolved (respond 400 (error_body "Invalid token")))
  /\ get "details" (error_body "Invalid token") = None.
Proof. repeat split; reflexivity. Qed.

(** ** Create, then read back *)

(** No statement breaks that. *)
Lemma exec_keeps_auto_increment_ahead (X : Collaborators) (db : Db) {T : Type} (q : Sql T) :
  auto_increment_ahead db = true ->
  auto_increment_ahead (fst (exec X db q)) = true.
Proof.
  unfold auto_increment_ahead, exec; intros H.
  destruct (outage db); [exact H|].
  assert (Hfilter : forall f, forallb (fun e => emp_id e <? employees_auto db)
                                (filter f (employees db)) = true).
  { intros f; apply forallb_forall; intros e He.
    apply filter_In in He; destruct He as [He _].
    revert e He; apply forallb_forall; exact H. }
  destruct q; simpl; try exact H.
  - destruct (store2 db _ _ _ _) as [e|[a b]]; simpl; [exact H|].
    destruct (existsb _ _); simpl; exact H.
  - destruct (store2 db _ _ _ _) as [e|[a b]]; simpl; [exact H|].
    rewrite forallb_app; simpl.
    replace (employees_auto db <? employees_auto db + 1) with true
      by (symmetry; apply Z.ltb_lt; lia).
    rewrite andb_true_r.
    apply forallb_forall; intros e He.
    rewrite forallb_forall in H; specialize (H e He).
    apply Z.ltb_lt in H; apply Z.ltb_lt; lia.
  - destruct (existsb _ _); simpl; [|exact H].
    destruct (store2 db _ _ _ _) as [e|[a b]]; simpl; [exact H|].
    rewrite forallb_forall in H. apply forallb_forall; intros e He.
    apply in_map_iff in He; destruct He as [r [<- Hr]].
    destruct (id_is X id r); simpl; apply H; exact Hr.
  - apply Hfilter.
Qed.

(** So it holds of every store the handlers can reach from one where it
    holds, the empty store for one. *)
Lemma run_keeps_auto_increment_ahead (X : Collaborators) {A : Type} (p : Prog A) (db : Db) :
  auto_increment_ahead db = true ->
  auto_increment_ahead (fst (run X p db)) = true.
Proof.
  revert db; induction p as [a|e|T q k IH]; intros db H; simpl; try exact H.
  pose proof (exec_keeps_auto_increment_ahead X db q H) as H'.
  destruct (exec X db q) as [db' o]; apply IH; exact H'.
Qed.

(** Among rows whose ids are below [n], together with a new row of id [n], a
    parameter the engine equates with [n] alone selects the new row. *)
Lemma select_new_row (X : Collaborators) (id : string) (n : Z) (rows : list EmployeeRow)
    (row : EmployeeRow) :
  (forall i, sql_int_eq X i id = (i =? n)) ->
  forallb (fun e => emp_id e <? n) rows = true ->
  emp_id row = n ->
  filter (id_is X id) (rows ++ [row]) = [row].
Proof.
  intros Hid Hrows Hrow; rewrite filter_app; simpl.
  unfold id_is at 2; rewrite Hid, Hrow, Z.eqb_refl.
  replace (filter (id_is X id) rows) with (@nil EmployeeRow); [reflexivity|].
  symmetry; apply filter_nil_existsb.
  induction rows as [|r rows IH]; simpl in *; [reflexivity|].
  apply andb_prop in Hrows; destruct Hrows as [Hr Hrows].
  rewrite (IH Hrows), orb_false_r; unfold id_is; rewrite Hid.
  apply Z.ltb_lt in Hr; apply Z.eqb_neq; lia.
Qed.

(** C7 (as amended).  For a name and a position of at least 2 and at most
    255 characters each (the width of the columns), an authorized
    POST /employees against an available store answers 201 with a record
    whose [id] is the number the store assigned, and a GET /employees/:id
    whose path parameter the engine equates with that id and no other is
    then answered 200 with an equal record.  (The store is one whose counter
    is ahead of the ids in the table, as every store the handlers reach is:
    [run_keeps_auto_increment_ahead].) *)
Theorem create_then_get_returns_equal_record (X : Collaborators) (req get_req : Request)
    (db : Db) (fields : list (string * json)) (n p : string) :
  outage db = None ->
  auto_increment_ahead db = true ->
  authorized X req = true ->
  body req = Some (JObj fields) ->
  assoc "name" fields = Some (JStr n) ->
  assoc "position" fields = Some (JStr p) ->
  2 <= strlen n <= 255 ->
  2 <= strlen p <= 255 ->
  (forall i, sql_int_eq X i (params_id get_req) = (i =? employees_auto db)) ->
  exists db' record,
    serve X POST_employees req db = (db', Resolved (respond 201 record))
    /\ record = JObj [("id", JNum (employees_auto db)); ("name", JStr n);
                      ("position", JStr p)]
    /\ serve X GET_employee get_req db' = (db', Resolved (respond 200 record)).
Proof.
  intros Ho Hahead Ha Hb Hn Hp Ln Lp Hid.
  destruct (protected_authorized X (post_employees X) req Ha) as [req' [Eb [_ E]]].
  unfold serve at 1; simpl; rewrite E.
  rewrite (post_employees_run X req' db fields n p) by (congruence || assumption).
  do 2 eexists; split; [reflexivity|]; split; [reflexivity|].
  unfold serve; simpl; unfold get_employee; simpl.
  rewrite exec_available by exact Ho; simpl.
  rewrite (select_new_row X (params_id get_req) (employees_auto db)) by
    (assumption || reflexivity).
  reflexivity.
Qed.

Lemma create_then_get_witness :
  let record := JObj [("id", JNum 2); ("name", JStr "Jo"); ("position", JStr "Eng")] in
  exists db' record',
    serve Sample.libs POST_employees
      (Sample.request (Some "Bearer good") (Sample.employee_body "Jo" "Eng") "")
      Sample.one_employee
    = (db', Resolved (respond 201 record'))
    /\ record' = record
    /\ serve Sample.libs GET_employee (Sample.request None None "2") db'
       = (db', Resolved (respond 200 record')).
Proof.
  assert (Hlen : forall s, s = "Jo" \/ s = "Eng" -> 2 <= strlen s <= 255)
    by (intros s [->| ->]; unfold strlen; simpl; lia).
  exact (create_then_get_returns_equal_record Sample.libs
           (Sample.request (Some "Bearer good") (Sample.employee_body "Jo" "Eng") "")
           (Sample.request None None "2") Sample.one_employee
           [("name", JStr "Jo"); ("position", JStr "Eng")] "Jo" "Eng"
           eq_refl eq_refl eq_refl eq_refl eq_refl eq_refl
           (Hlen _ (or_introl eq_refl)) (Hlen _ (or_intror eq_refl))
           (fun i => eq_refl)).
Defined.

(** C7, as the specification states it, does not hold for a name of 256
    characters (position "Eng").  In a strict session the INSERT is refused
    and POST /employees answers 400, with no record and no row.  In a session that is not strict
    the row is stored with the name cut to 255 characters: POST answers 201
    with the 256 characters, GET /employees/1 answers with the 255. *)
Lemma create_long_name_not_read_back :
  let long := Sample.letters 256 in
  let req := Sample.request (Some "Bearer good") (Sample.employee_body long "Eng") "" in
  let lenient :=
    {| users := []; employees := []; users_auto := 1; employees_auto := 1;
       strict := false; outage := None |} in
  let stored :=
    {| users := []; employees :=
         [{| emp_id := 1; emp_name := Sample.letters 255; emp_position := "Eng" |}];
       users_auto := 1; employees_auto := 2; strict := false; outage := None |} in
  2 <= strlen long
  /\ serve Sample.libs POST_employees req Sample.empty
     = (Sample.empty,
        Resolved (respond 400 (error_body "Data too long for column 'name' at row 1")))
  /\ serve Sample.libs POST_employees req lenient
     = (stored,
        Resolved (respond 201 (JObj [("id", JNum 1); ("name", JStr long);
                                     ("position", JStr "Eng")])))
  /\ serve Sample.libs GET_employee (Sample.request None None "1") stored
     = (stored,
        Resolved (respond 200 (JObj [("id", JNum 1); ("name", JStr (Sample.letters 255));
                                     ("position", JStr "Eng")])))
  /\ Sample.letters 255 <> long.
Proof.
  cbv zeta; repeat split; try (vm_compute; reflexivity).
  - vm_compute; discriminate.
  - intros H; apply (f_equal String.length) in H; vm_compute in H; discriminate.
Qed.

(** ** Registration of an address already taken *)

(** The shape of the registration handler on a body its schema accepts: it
    waits for the SELECT, and when that finds no row it waits for the INSERT;
    whatever error the INSERT is rejected with, the answer is 500
    "Registration failed". *)
Lemma register_insert_rejected (X : Collaborators) (req : Request) (c : Credentials) :
  userSchema X (body req) = inr c ->
  exists k1 k2,
    post_register X req = Await (SelectUsersByEmail (email c)) k1
    /\ k1 (Resolved []) = Await (InsertUser (email c) (bcrypt_hash X (password c))) k2
    /\ (forall row rows,
          k1 (Resolved (row :: rows)) = Ret (respond 409 (error_body "Email already exists")))
    /\ forall e, k2 (Rejected e) = Ret (respond 500 (error_body "Registration failed")).
Proof.
  intros H; unfold post_register; rewrite H; simpl.
  do 2 eexists; split; [reflexivity|]; split; [reflexivity|]; split; reflexivity.
Qed.

(** One registration after the other: the second is answered 409. *)
Lemma register_twice_in_turn :
  let req := Sample.request None (Sample.credentials_body "a@b.com" "secret1") "" in
  let (db1, first) := serve Sample.libs POST_register req Sample.empty in
  let (db2, second) := serve Sample.libs POST_register req db1 in
  first = Resolved (respond 201 (JObj [("message", JStr "User registered successfully")]))
  /\ second = Resolved (respond 409 (error_body "Email already exists"))
  /\ db2 = db1.
Proof. vm_compute; repeat split; reflexivity. Qed.

(** C4.  The specification wants the registration that loses a race to be
    answered 409.  Two POST /register for "a@b.com" are in flight on an empty
    store and the store answers the two SELECTs before the two INSERTs: the
    second INSERT is refused by the UNIQUE key on [email], and that request
    is answered 500 "Registration failed", not 409; one row is stored. *)
Theorem racing_registration_answers_500 :
  let req := Sample.request None (Sample.credentials_body "a@b.com" "secret1") "" in
  let register := post_register Sample.libs req in
  interleave Sample.libs [true; false; true; false] Sample.empty register register
  = ({| users := [{| user_id := 1; user_email := "a@b.com";
                     user_password := Sample.hash "secret1" |}];
        employees := []; users_auto := 3; employees_auto := 1;
        strict := true; outage := None |},
     Ret (respond 201 (JObj [("message", JStr "User registered successfully")])),
     Ret (respond 500 (error_body "Registration failed"))).
Proof. reflexivity. Qed.

(** ** Issued tokens *)

Lemma split_no_dot (s : string) : no_dot s = true -> split "."%char s = [s].
Proof.
  induction s as [|c s IH]; simpl; [reflexivity|].
  destruct (Ascii.eqb c "."%char); simpl; [discriminate|].
  intros H; rewrite (IH H); reflexivity.
Qed.

Lemma split_dot (s rest : string) :
  no_dot s = true ->
  split "."%char (s ++ String "."%char rest) = s :: split "."%char rest.
Proof.
  induction s as [|c s IH]; simpl; [reflexivity|].
  destruct (Ascii.eqb c "."%char); simpl; [discriminate|].
  intros H; rewrite (IH H); reflexivity.
Qed.

Lemma uint_no_dot (d : Decimal.uint) : no_dot (NilEmpty.string_of_uint d) = true.
Proof. induction d; simpl; assumption || reflexivity. Qed.

Lemma decimal_no_dot (z : Z) : no_dot (decimal z) = true.
Proof.
  unfold decimal, NilEmpty.string_of_int.
  destruct (Z.to_int z); simpl; apply uint_no_dot.
Qed.

Lemma undecimal_decimal (z : Z) : undecimal (decimal z) = Some z.
Proof.
  unfold undecimal, decimal; rewrite NilEmpty.isi; simpl.
  rewrite DecimalZ.of_to; reflexivity.
Qed.

Lemma decode_encode (t : TokenService.Token) :
  TokenService.decode (TokenService.encode t) = Some t.
Proof.
  unfold TokenService.decode, TokenService.encode; cbn [append].
  rewrite !split_dot, split_no_dot by apply decimal_no_dot.
  rewrite !undecimal_decimal.
  destruct t as [[u i e] g]; reflexivity.
Qed.

(** C8.  Whatever the signing function and the secret, the token issued for
    a subject at time [now] verifies to that subject at every time before
    [now] + 1 hour and to [Expired] at every time after it. *)
Theorem issued_token_verifies_until_expiry (mac : string -> JwtPayload -> Z)
    (secret : string) (now subjectId t : Z) :
  (t < now + 3600 ->
   TokenService.verify mac secret t (TokenService.issue mac secret now subjectId)
   = TokenService.Subject subjectId)
  /\ (now + 3600 < t ->
      TokenService.verify mac secret t (TokenService.issue mac secret now subjectId)
      = TokenService.Expired).
Proof.
  unfold TokenService.verify, TokenService.issue; cbv zeta.
  rewrite decode_encode; simpl; rewrite Z.eqb_refl.
  unfold TokenService.lifetime; split; intros H.
  - destruct (Z.leb_spec (now + 3600) t); [lia | reflexivity].
  - destruct (Z.leb_spec (now + 3600) t); [reflexivity | lia].
Qed.

Lemma issued_token_witness :
  let mac := fun (secret : string) (c : JwtPayload) =>
               strlen secret + userId c + 3 * iat c + 7 * exp c in
  TokenService.verify mac "s3cret" 4599 (TokenService.issue mac "s3cret" 1000 42)
  = TokenService.Subject 42
  /\ TokenService.verify mac "s3cret" 4601 (TokenService.issue mac "s3cret" 1000 42)
     = TokenService.Expired.
Proof.
  intros mac; split.
  - apply (proj1 (issued_token_verifies_until_expiry mac "s3cret" 1000 42 4599)); lia.
  - apply (proj2 (issued_token_verifies_until_expiry mac "s3cret" 1000 42 4601)); lia.
Defined.

(** * Further properties of the handlers *)

(** ** Deleting *)

Lemma filter_keeps_all {A : Type} (f : A -> bool) (rows : list A) :
  existsb f rows = false -> filter (fun a => negb (f a)) rows = rows.
Proof.
  induction rows as [|r rows IH]; simpl; [reflexivity|].
  destruct (f r); simpl; [discriminate|].
  intros H; rewrite (IH H); reflexivity.
Qed.

Lemma filter_out_then_none {A : Type} (f : A -> bool) (rows : list A) :
  existsb f (filter (fun a => negb (f a)) rows) = false.
Proof.
  induction rows as [|r rows IH]; simpl; [reflexivity|].
  destruct (f r) eqn:E; simpl; [exact IH|].
  rewrite E, IH; reflexivity.
Qed.

(** The DELETE handler once past [authenticate], against an available
    store. *)
Lemma delete_employee_run (X : Collaborators) (req : Request) (db : Db) :
  outage db = None ->
  run X (delete_employee X req) db =
  (with_employees db
     (filter (fun e => negb (id_is X (params_id req) e)) (employees db))
     (employees_auto db),
   Resolved (if existsb (id_is X (params_id req)) (employees db)
             then respond 200 (JObj [("message", JStr "Employee deleted successfully")])
             else respond 404 (error_body "Employee not found"))).
Proof.
  intros Ho; unfold delete_employee; simpl.
  rewrite exec_available by exact Ho; simpl.
  rewrite count_filter_zero.
  destruct (existsb _ _); reflexivity.
Qed.

(** The GET handler for one employee against an available store. *)
Lemma get_employee_run (X : Collaborators) (req : Request) (db : Db) :
  outage db = None ->
  serve X GET_employee req db =
  (db, Resolved match filter (id_is X (params_id req)) (employees db) with
                | [] => respond 404 (error_body "Employee not found")
                | row :: _ => respond 200 (employee_json row)
                end).
Proof.
  intros Ho; unfold serve; simpl; unfold get_employee; simpl.
  rewrite exec_available by exact Ho; simpl.
  destruct (filter _ _); reflexivity.
Qed.

(** The DELETE route for a request that gets past [authenticate]. *)
Lemma delete_authorized (X : Collaborators) (req : Request) (db : Db) :
  outage db = None ->
  authorized X req = true ->
  serve X DELETE_employee req db =
  (with_employees db
     (filter (fun e => negb (id_is X (params_id req) e)) (employees db))
     (employees_auto db),
   Resolved (if existsb (id_is X (params_id req)) (employees db)
             then respond 200 (JObj [("message", JStr "Employee deleted successfully")])
             else respond 404 (error_body "Employee not found"))).
Proof.
  intros Ho Ha.
  destruct (protected_authorized X (delete_employee X) req Ha) as [req' [_ [Ei E]]].
  unfold serve; simpl; rewrite E, (delete_employee_run X req' db Ho), Ei; reflexivity.
Qed.

(** X1.  An authorized DELETE /employees/:id against an available store
    removes every row the id selects and keeps the others, in their order;
    it answers 200 when there was such a row and 404 "Employee not found"
    when there was none, and then the store is as before.  The users and the
    counter of ids are never touched. *)
Theorem delete_removes_the_selected_rows (X : Collaborators) (req : Request) (db : Db) :
  outage db = None ->
  authorized X req = true ->
  exists db',
    serve X DELETE_employee req db
    = (db', Resolved (if existsb (id_is X (params_id req)) (employees db)
                      then respond 200 (JObj [("message",
                                               JStr "Employee deleted successfully")])
                      else respond 404 (error_body "Employee not found")))
    /\ employees db' = filter (fun e => negb (id_is X (params_id req) e)) (employees db)
    /\ users db' = users db
    /\ employees_auto db' = employees_auto db
    /\ (existsb (id_is X (params_id req)) (employees db) = false -> db' = db).
Proof.
  intros Ho Ha; rewrite (delete_authorized X req db Ho Ha).
  eexists; split; [reflexivity|]; simpl; repeat split.
  intros Hnone; rewrite (filter_keeps_all _ _ Hnone); apply with_employees_same.
Qed.

Lemma delete_removes_the_selected_rows_witness :
  exists db',
    serve Sample.libs DELETE_employee (Sample.request (Some "Bearer good") None "1")
      Sample.one_employee
    = (db', Resolved (respond 200 (JObj [("message",
                                          JStr "Employee deleted successfully")])))
    /\ employees db' = []
    /\ users db' = []
    /\ employees_auto db' = 2
    /\ (true = false -> db' = Sample.one_employee).
Proof.
  exact (delete_removes_the_selected_rows Sample.libs
           (Sample.request (Some "Bearer good") None "1") Sample.one_employee
           eq_refl eq_refl).
Defined.

(** X2.  After an authorized DELETE /employees/:id against an available
    store, whatever it answered, a GET /employees/:id with the same path
    parameter answers 404 "Employee not found", and so does the same DELETE
    once more. *)
Theorem deleted_employee_is_gone (X : Collaborators) (req get_req : Request) (db : Db) :
  outage db = None ->
  authorized X req = true ->
  params_id get_req = params_id req ->
  let db' := fst (serve X DELETE_employee req db) in
  serve X GET_employee get_req db'
  = (db', Resolved (respond 404 (error_body "Employee not found")))
  /\ serve X DELETE_employee req db'
     = (db', Resolved (respond 404 (error_body "Employee not found"))).
Proof.
  intros Ho Ha Hid db'; unfold db'; clear db'.
  rewrite (delete_authorized X req db Ho Ha); simpl.
  set (db1 := with_employees db _ _).
  assert (Ho1 : outage db1 = None) by exact Ho.
  assert (Hnone : existsb (id_is X (params_id req)) (employees db1) = false)
    by apply filter_out_then_none.
  split.
  - rewrite (get_employee_run X get_req db1 Ho1), Hid.
    apply filter_nil_existsb in Hnone; rewrite Hnone; reflexivity.
  - rewrite (delete_authorized X req db1 Ho1 Ha), Hnone.
    rewrite (filter_keeps_all _ _ Hnone), with_employees_same; reflexivity.
Qed.

Lemma deleted_employee_is_gone_witness :
  let req := Sample.request (Some "Bearer good") None "1" in
  let db' := fst (serve Sample.libs DELETE_employee req Sample.one_employee) in
  serve Sample.libs GET_employee (Sample.request None None "1") db'
  = (db', Resolved (respond 404 (error_body "Employee not found")))
  /\ serve Sample.libs DELETE_employee req db'
     = (db', Resolved (respond 404 (error_body "Employee not found"))).
Proof.
  exact (deleted_employee_is_gone Sample.libs
           (Sample.request (Some "Bearer good") None "1")
           (Sample.request None None "1") Sample.one_employee
           eq_refl eq_refl eq_refl).
Defined.

(** ** Creating, listing, updating and reading back *)

(** X3.  GET /employees against an available store answers 200 with every
    row, in the order of the table.  After an authorized POST /employees
    with a name and a position the schema and the columns accept, the list
    is the one before followed by the record the POST answered with. *)
Theorem created_employee_is_listed_last (X : Collaborators) (req list_req : Request)
    (db : Db) (fields : list (string * json)) (n p : string) :
  outage db = None ->
  authorized X req = true ->
  body req = Some (JObj fields) ->
  assoc "name" fields = Some (JStr n) ->
  assoc "position" fields = Some (JStr p) ->
  2 <= strlen n <= 255 ->
  2 <= strlen p <= 255 ->
  exists db' record,
    serve X GET_employees list_req db
    = (db, Resolved (respond 200 (JArr (map employee_json (employees db)))))
    /\ serve X POST_employees req db = (db', Resolved (respond 201 record))
    /\ serve X GET_employees list_req db'
       = (db', Resolved (respond 200 (JArr (map employee_json (employees db) ++ [record])))).
Proof.
  intros Ho Ha Hb Hn Hp Ln Lp.
  destruct (protected_authorized X (post_employees X) req Ha) as [req' [Eb [_ E]]].
  unfold serve; simpl; rewrite E.
  rewrite (post_employees_run X req' db fields n p) by (congruence || assumption).
  do 2 eexists; split; [|split; [reflexivity|]];
    unfold get_employees; simpl; rewrite exec_available by exact Ho; simpl.
  - reflexivity.
  - rewrite map_app; reflexivity.
Qed.

Lemma created_employee_is_listed_last_witness :
  exists db' record,
    serve Sample.libs GET_employees (Sample.request None None "") Sample.one_employee
    = (Sample.one_employee,
       Resolved (respond 200 (JArr (map employee_json (employees Sample.one_employee)))))
    /\ serve Sample.libs POST_employees
         (Sample.request (Some "Bearer good") (Sample.employee_body "Jo" "Eng") "")
         Sample.one_employee
       = (db', Resolved (respond 201 record))
    /\ serve Sample.libs GET_employees (Sample.request None None "") db'
       = (db', Resolved (respond 200
                 (JArr (map employee_json (employees Sample.one_employee) ++ [record])))).
Proof.
  assert (Hlen : forall s, s = "Jo" \/ s = "Eng" -> 2 <= strlen s <= 255)
    by (intros s [->| ->]; unfold strlen; simpl; lia).
  exact (created_employee_is_listed_last Sample.libs
           (Sample.request (Some "Bearer good") (Sample.employee_body "Jo" "Eng") "")
           (Sample.request None None "") Sample.one_employee
           [("name", JStr "Jo"); ("position", JStr "Eng")] "Jo" "Eng"
           eq_refl eq_refl eq_refl eq_refl eq_refl
           (Hlen _ (or_introl eq_refl)) (Hlen _ (or_intror eq_refl))).
Defined.

Lemma filter_updated (X : Collaborators) (id n p : string) (rows : list EmployeeRow) :
  filter (id_is X id) (map (fun e => if id_is X id e then set_employee n p e else e) rows)
  = map (set_employee n p) (filter (id_is X id) rows).
Proof.
  induction rows as [|r rows IH]; simpl; [reflexivity|].
  destruct (id_is X id r) eqn:E; simpl.
  - unfold id_is at 1; simpl; fold (id_is X id r); rewrite E, IH; reflexivity.
  - rewrite E, IH; reflexivity.
Qed.

(** X4.  After an authorized PUT /employees/:id that found a row, with a
    name and a position the schema and the columns accept, a
    GET /employees/:id with the same path parameter answers 200 with the new
    name and position; its [id] is the number of the row, where the PUT
    answered with the string of the path. *)
Theorem updated_employee_is_read_back (X : Collaborators) (req get_req : Request)
    (db : Db) (fields : list (string * json)) (n p : string) :
  outage db = None ->
  authorized X req = true ->
  body req = Some (JObj fields) ->
  assoc "name" fields = Some (JStr n) ->
  assoc "position" fields = Some (JStr p) ->
  2 <= strlen n <= 255 ->
  2 <= strlen p <= 255 ->
  existsb (id_is X (params_id req)) (employees db) = true ->
  params_id get_req = params_id req ->
  exists db' i,
    serve X PUT_employee req db
    = (db', Resolved (respond 200 (JObj [("id", JStr (params_id req)); ("name", JStr n);
                                         ("position", JStr p)])))
    /\ serve X GET_employee get_req db'
       = (db', Resolved (respond 200 (JObj [("id", JNum i); ("name", JStr n);
                                            ("position", JStr p)])))
    /\ sql_int_eq X i (params_id req) = true.
Proof.
  intros Ho Ha Hb Hn Hp Ln Lp Hfound Hid.
  destruct (protected_authorized X (put_employee X) req Ha) as [req' [Eb [Ei E]]].
  unfold serve at 1; simpl; rewrite E.
  rewrite (put_employee_run X req' db fields n p) by (congruence || assumption).
  rewrite Ei, Hfound.
  destruct (filter (id_is X (params_id req)) (employees db)) as [|row rows] eqn:Hrows.
  - apply filter_nil_existsb in Hrows; rewrite Hrows in Hfound; discriminate.
  - exists (with_employees db
              (map (fun e => if id_is X (params_id req) e then set_employee n p e else e)
                 (employees db))
              (employees_auto db)), (emp_id row).
    split; [reflexivity|]; split.
    + rewrite get_employee_run by exact Ho; simpl.
      rewrite Hid, filter_updated, Hrows; reflexivity.
    + assert (Hin : In row (filter (id_is X (params_id req)) (employees db)))
        by (rewrite Hrows; left; reflexivity).
      apply filter_In in Hin; exact (proj2 Hin).
Qed.

Lemma updated_employee_is_read_back_witness :
  exists db' i,
    serve Sample.libs PUT_employee
      (Sample.request (Some "Bearer good") (Sample.employee_body "Al" "Boss") "1")
      Sample.one_employee
    = (db', Resolved (respond 200 (JObj [("id", JStr "1"); ("name", JStr "Al");
                                         ("position", JStr "Boss")])))
    /\ serve Sample.libs GET_employee (Sample.request None None "1") db'
       = (db', Resolved (respond 200 (JObj [("id", JNum i); ("name", JStr "Al");
                                            ("position", JStr "Boss")])))
    /\ sql_int_eq Sample.libs i "1" = true.
Proof.
  assert (Hlen : forall s, s = "Al" \/ s = "Boss" -> 2 <= strlen s <= 255)
    by (intros s [->| ->]; unfold strlen; simpl; lia).
  exact (updated_employee_is_read_back Sample.libs
           (Sample.request (Some "Bearer good") (Sample.employee_body "Al" "Boss") "1")
           (Sample.request None None "1") Sample.one_employee
           [("name", JStr "Al"); ("position", JStr "Boss")] "Al" "Boss"
           eq_refl eq_refl eq_refl eq_refl eq_refl
           (Hlen _ (or_introl eq_refl)) (Hlen _ (or_intror eq_refl))
           eq_refl eq_refl).
Defined.

(** ** What the schemas accept *)

Lemma employeeSchema_accepted (X : Collaborators) (b : option json) (d : EmployeeData) :
  employeeSchema X b = inr d ->
  exists fields,
    b = Some (JObj fields)
    /\ assoc "name" fields = Some (JStr (name d))
    /\ assoc "position" fields = Some (JStr (position d))
    /\ 2 <= strlen (name d) /\ 2 <= strlen (position d).
Proof.
  unfold employeeSchema, zobject.
  destruct b as [[| | | | |fields]|]; try discriminate.
  pose proof (zstring_min2 X "Name must be at least 2 characters" "name"
                (assoc "name" fields)) as H1.
  pose proof (zstring_min2 X "Position cannot be empty" "position"
                (assoc "position" fields)) as H2.
  destruct (zstring X _ ["name"] _) as [e1|s1];
    destruct (zstring X _ ["position"] _) as [e2|s2]; try discriminate.
  intros [= <-]; simpl.
  destruct H1 as [E1 V1], H2 as [E2 V2].
  apply Z.ltb_ge in V1, V2.
  exists fields; repeat split; assumption.
Qed.

(** X5.  The employee schema accepts a body exactly when it is an object
    whose [name] and [position] are strings of at least two characters
    each; the result holds these two strings and nothing else of the body.
    Nothing is asked of the characters (blanks count like any other) and
    other keys are ignored. *)
Theorem employeeSchema_accepts_exactly (X : Collaborators) (b : option json)
    (d : EmployeeData) :
  employeeSchema X b = inr d
  <-> exists fields,
        b = Some (JObj fields)
        /\ assoc "name" fields = Some (JStr (name d))
        /\ assoc "position" fields = Some (JStr (position d))
        /\ 2 <= strlen (name d) /\ 2 <= strlen (position d).
Proof.
  split.
  - apply employeeSchema_accepted.
  - intros [fields [-> [Hn [Hp [Ln Lp]]]]].
    rewrite (employeeSchema_accepts X fields _ _ Hn Hp Ln Lp).
    destruct d; reflexivity.
Qed.

Lemma loginSchema_of_userSchema (X : Collaborators) (b : option json) (c : Credentials) :
  userSchema X b = inr c -> loginSchema X b = inr c.
Proof.
  unfold userSchema, loginSchema, zobject.
  destruct b as [[| | | | |fields]|]; try discriminate.
  destruct (zstring X [Email] ["email"] (assoc "email" fields)) as [e1|s1].
  - destruct (zstring X _ ["password"] _); discriminate.
  - unfold zstring.
    destruct (assoc "password" fields) as [[| | |s| |]|]; try discriminate; simpl.
    destruct (Z.ltb_spec (strlen s) 6); simpl; [discriminate|].
    destruct (Z.ltb_spec (strlen s) 1); simpl; [lia|].
    intros Hc; exact Hc.
Qed.

(** X6.  Every body the registration schema accepts the login schema
    accepts too, with the same credentials: whoever could register can
    attempt to log in. *)
Theorem userSchema_within_loginSchema (X : Collaborators) (b : option json)
    (c : Credentials) :
  userSchema X b = inr c -> loginSchema X b = inr c.
Proof. exact (loginSchema_of_userSchema X b c). Qed.

Lemma userSchema_within_loginSchema_witness :
  loginSchema Sample.libs (Sample.credentials_body "a@b.com" "secret1")
  = inr {| email := "a@b.com"; password := "secret1" |}.
Proof.
  apply (userSchema_within_loginSchema Sample.libs); reflexivity.
Defined.

(** X7.  A POST /employees whose body the employee schema refuses never
    changes the store, authorized or not; when it is authorized the answer
    is 400 with [{error: "Validation failed", details}], the issues of the
    schema, and no statement is sent (the answer is the same when the store
    cannot be reached). *)
Theorem post_invalid_body_answers_400 (X : Collaborators) (req : Request) (db : Db)
    (errors : list ZodIssue) :
  employeeSchema X (body req) = inl errors ->
  fst (serve X POST_employees req db) = db
  /\ (authorized X req = true ->
      app X POST_employees req
      = Ret (respond 400 (JObj [("error", JStr "Validation failed");
                                ("details", issues_json errors)]))).
Proof.
  intros He; unfold serve; simpl; unfold protected, authorized.
  destruct (authenticate X req) as [resp|req'] eqn:Ea.
  - split; [reflexivity | discriminate].
  - assert (Eb : body req' = body req).
    { revert Ea; unfold authenticate.
      destruct (bearer (authorization req)); [|discriminate].
      destruct (jwt_verify X s); [|discriminate].
      intros [= <-]; reflexivity. }
    unfold post_employees; rewrite Eb, He; simpl; split; reflexivity.
Qed.

Lemma post_invalid_body_answers_400_witness :
  let req := Sample.request (Some "Bearer good") (Sample.employee_body "Jo" "") "" in
  let errors := [too_small 2 "Position cannot be empty" ["position"]] in
  fst (serve Sample.libs POST_employees req Sample.one_employee) = Sample.one_employee
  /\ (authorized Sample.libs req = true ->
      app Sample.libs POST_employees req
      = Ret (respond 400 (JObj [("error", JStr "Validation failed");
                                ("details", issues_json errors)]))).
Proof.
  intros req errors.
  apply (post_invalid_body_answers_400 Sample.libs req Sample.one_employee errors).
  reflexivity.
Defined.

(** ** Registering and logging in *)

(** The registration route on a body its schema accepts, against an
    available store, for an address no row has. *)
Lemma register_free_address (X : Collaborators) (req : Request) (c : Credentials) (db : Db) :
  userSchema X (body req) = inr c ->
  outage db = None ->
  existsb (email_is X (email c)) (users db) = false ->
  fits (email c) = true ->
  fits (bcrypt_hash X (password c)) = true ->
  serve X POST_register req db
  = (with_users db
       (users db ++ [{| user_id := users_auto db; user_email := email c;
                        user_password := bcrypt_hash X (password c) |}])
       (users_auto db + 1),
     Resolved (respond 201 (JObj [("message", JStr "User registered successfully")]))).
Proof.
  intros Hc Ho Hfree Fe Fp; unfold serve; simpl; unfold post_register.
  rewrite Hc; simpl. rewrite exec_available by exact Ho; simpl.
  pose proof (proj2 (filter_nil_existsb _ _) Hfree) as Hnil; rewrite Hnil; simpl.
  rewrite exec_available by exact Ho; simpl.
  rewrite store2_fits by assumption; simpl. rewrite Hfree; reflexivity.
Qed.

(** X8.  POST /register with a body its schema accepts, against an
    available store: when a row already has the address the answer is 409
    "Email already exists" and the store is as before; when none has it (and
    the address and the digest fit their columns) the answer is 201 and one
    row is added, with the next id, the address, and the bcrypt digest of the
    password in place of the password. *)
Theorem registration_refuses_taken_address_and_stores_digest (X : Collaborators)
    (req : Request) (c : Credentials) (db : Db) :
  userSchema X (body req) = inr c ->
  outage db = None ->
  (existsb (email_is X (email c)) (users db) = true ->
   serve X POST_register req db
   = (db, Resolved (respond 409 (error_body "Email already exists"))))
  /\ (existsb (email_is X (email c)) (users db) = false ->
      fits (email c) = true ->
      fits (bcrypt_hash X (password c)) = true ->
      serve X POST_register req db
      = (with_users db
           (users db ++ [{| user_id := users_auto db; user_email := email c;
                            user_password := bcrypt_hash X (password c) |}])
           (users_auto db + 1),
         Resolved (respond 201 (JObj [("message", JStr "User registered successfully")])))).
Proof.
  intros Hc Ho; split.
  - intros Htaken; unfold serve; simpl; unfold post_register.
    rewrite Hc; simpl. rewrite exec_available by exact Ho; simpl.
    destruct (filter (email_is X (email c)) (users db)) eqn:Hrows; [|reflexivity].
    apply filter_nil_existsb in Hrows; rewrite Hrows in Htaken; discriminate.
  - apply register_free_address; assumption.
Qed.

Lemma registration_refuses_taken_address_witness :
  let req := Sample.request None (Sample.credentials_body "a@b.com" "secret1") "" in
  let row := {| user_id := 1; user_email := "a@b.com";
                user_password := Sample.hash "secret1" |} in
  let db1 := with_users Sample.empty [row] 2 in
  serve Sample.libs POST_register req Sample.empty
  = (db1, Resolved (respond 201 (JObj [("message", JStr "User registered successfully")])))
  /\ serve Sample.libs POST_register req db1
     = (db1, Resolved (respond 409 (error_body "Email already exists"))).
Proof.
  intros req row db1; split.
  - apply (proj2 (registration_refuses_taken_address_and_stores_digest Sample.libs req
                    {| email := "a@b.com"; password := "secret1" |} Sample.empty
                    eq_refl eq_refl)); reflexivity.
  - apply (proj1 (registration_refuses_taken_address_and_stores_digest Sample.libs req
                    {| email := "a@b.com"; password := "secret1" |} db1
                    eq_refl eq_refl)); reflexivity.
Defined.

(** X9.  Register, then log in.  After a POST /register that stored a new
    row, a POST /login with the same body is answered 200 with the token
    [jwt.sign] gives for the id of that row, provided the engine finds the
    address equal to itself, bcrypt accepts the password against its own
    digest, and the signing does not throw. *)
Theorem registered_user_can_log_in (X : Collaborators) (req : Request) (c : Credentials)
    (db : Db) (token : string) :
  userSchema X (body req) = inr c ->
  outage db = None ->
  existsb (email_is X (email c)) (users db) = false ->
  fits (email c) = true ->
  fits (bcrypt_hash X (password c)) = true ->
  sql_str_eq X (email c) (email c) = true ->
  bcrypt_compare X (password c) (bcrypt_hash X (password c)) = true ->
  jwt_sign X (users_auto db) = inl token ->
  let db' := fst (serve X POST_register req db) in
  serve X POST_login req db' = (db', Resolved (respond 200 (JObj [("token", JStr token)]))).
Proof.
  intros Hc Ho Hfree Fe Fp Heq Hpw Hsign db'; unfold db'; clear db'.
  rewrite (register_free_address X req c db) by assumption; simpl.
  unfold serve; simpl; unfold post_login.
  rewrite (loginSchema_of_userSchema X _ c Hc); simpl.
  rewrite exec_available by exact Ho; simpl.
  rewrite filter_app, (proj2 (filter_nil_existsb _ _) Hfree); simpl.
  unfold email_is at 1; simpl; rewrite Heq; simpl.
  rewrite Hpw, Hsign; reflexivity.
Qed.

Lemma registered_user_can_log_in_witness :
  let req := Sample.request None (Sample.credentials_body "a@b.com" "secret1") "" in
  let db' := fst (serve Sample.libs POST_register req Sample.empty) in
  serve Sample.libs POST_login req db'
  = (db', Resolved (respond 200 (JObj [("token", JStr "token.1")]))).
Proof.
  exact (registered_user_can_log_in Sample.libs
           (Sample.request None (Sample.credentials_body "a@b.com" "secret1") "")
           {| email := "a@b.com"; password := "secret1" |} Sample.empty "token.1"
           eq_refl eq_refl eq_refl eq_refl eq_refl eq_refl eq_refl eq_refl).
Defined.

(** ** The Authorization header *)

Lemma split_lacks_whole (sep : ascii) (s : string) :
  lacks sep s = true -> split sep s = [s].
Proof.
  induction s as [|c s IH]; simpl; [reflexivity|].
  destruct (Ascii.eqb c sep); simpl; [discriminate|].
  intros H; rewrite (IH H); reflexivity.
Qed.

Lemma split_lacks (sep : ascii) (s rest : string) :
  lacks sep s = true -> split sep (s ++ String sep rest) = s :: split sep rest.
Proof.
  induction s as [|c s IH]; simpl.
  - rewrite Ascii.eqb_refl; reflexivity.
  - destruct (Ascii.eqb c sep); simpl; [discriminate|].
    intros H; rewrite (IH H); reflexivity.
Qed.

(** X10.  A request to a protected route that does not get past
    [authenticate] is answered at once, with no statement sent to the store:
    401 when the header yields no token, 400 otherwise.  So it is answered
    the same whether the store can be reached or not, and the store is
    never changed by it. *)
Theorem unauthorized_request_sends_no_statement (X : Collaborators) (r : Route)
    (req : Request) :
  is_protected r = true ->
  authorized X req = false ->
  exists response,
    app X r req = Ret response
    /\ (bearer (authorization req) = None ->
        response = respond 401 (error_body "Access denied"))
    /\ (bearer (authorization req) <> None ->
        response = respond 400 (error_body "Invalid token")).
Proof.
  intros Hr; unfold authorized.
  destruct r; try discriminate Hr; simpl; unfold protected, authenticate;
    (destruct (bearer (authorization req)) as [token|];
     [destruct (jwt_verify X token); [discriminate | idtac] | idtac]);
    intros _; eexists; (split; [reflexivity|]); split; intros H;
    try reflexivity; try discriminate H; exfalso; apply H; reflexivity.
Qed.

Lemma unauthorized_request_sends_no_statement_witness :
  exists response,
    app Sample.libs DELETE_employee (Sample.request (Some "good") None "1") = Ret response
    /\ (bearer (Some "good") = None -> response = respond 401 (error_body "Access denied"))
    /\ (bearer (Some "good") <> None -> response = respond 400 (error_body "Invalid token")).
Proof.
  exact (unauthorized_request_sends_no_statement Sample.libs DELETE_employee
           (Sample.request (Some "good") None "1") eq_refl eq_refl).
Defined.

(** X11.  [authenticate] takes the second word of the header for the token
    and does not look at the first: with any word in front, "Bearer" or not,
    a token that verifies gets the request past it. *)
Theorem any_scheme_word_is_accepted (X : Collaborators) (req : Request)
    (scheme token : string) (decoded : JwtPayload) :
  authorization req = Some (scheme ++ " " ++ token) ->
  lacks " "%char scheme = true ->
  lacks " "%char token = true ->
  token <> "" ->
  jwt_verify X token = Decoded decoded ->
  authorized X req = true.
Proof.
  intros Hh Hs Ht Hne Hv; unfold authorized, authenticate, bearer.
  rewrite Hh; cbn [append].
  rewrite (split_lacks _ _ _ Hs), (split_lacks_whole _ _ Ht); simpl.
  destruct token; [contradiction Hne; reflexivity|].
  rewrite Hv; reflexivity.
Qed.

Lemma any_scheme_word_is_accepted_witness :
  authorized Sample.libs (Sample.request (Some "Basic good") None "1") = true.
Proof.
  apply (any_scheme_word_is_accepted Sample.libs _ "Basic" "good"
           {| userId := 1; iat := 0; exp := 3600 |});
    try reflexivity. discriminate.
Defined.

(** X12.  The token has to be the second word, one blank after the first:
    a header that is a single word (a token sent bare), one that ends after
    the blank, and one with two blanks after the first word all yield no
    token, and a protected route answers them 401 "Access denied" whatever
    the words are. *)
Theorem token_must_follow_one_blank (X : Collaborators) (r : Route) (req : Request)
    (db : Db) (word rest : string) :
  is_protected r = true ->
  lacks " "%char word = true ->
  authorization req = Some word
  \/ authorization req = Some (word ++ " ")
  \/ authorization req = Some (word ++ "  " ++ rest) ->
  serve X r req db = (db, Resolved (respond 401 (error_body "Access denied"))).
Proof.
  intros Hr Hw Hh; apply missing_token_answers_401; [exact Hr|].
  unfold bearer; destruct Hh as [-> | [-> | ->]]; cbn [append].
  - rewrite (split_lacks_whole _ _ Hw); reflexivity.
  - rewrite (split_lacks _ _ _ Hw); reflexivity.
  - rewrite (split_lacks _ _ _ Hw); simpl; reflexivity.
Qed.

Lemma token_must_follow_one_blank_witness :
  serve Sample.libs PUT_employee
    (Sample.request (Some "Bearer  good") (Sample.employee_body "Al" "Boss") "1")
    Sample.one_employee
  = (Sample.one_employee, Resolved (respond 401 (error_body "Access denied"))).
Proof.
  apply (token_must_follow_one_blank Sample.libs PUT_employee _ _ "Bearer" "good");
    [reflexivity | reflexivity | right; right; reflexivity].
Defined.

(** ** The routes taken together *)

(** Case analysis of a served request: the middleware, the schema, the
    availability of the store and what each statement finds. *)
Ltac serve_cases X req :=
  unfold serve, app, protected;
  try (match goal with
       | |- context [authenticate X req] =>
           unfold authenticate;
           let token := fresh "token" in
           destruct (bearer (authorization req)) as [token|];
           [destruct (jwt_verify X token) as [?decoded|?e] | idtac]
       end);
  unfold post_login, post_register, post_employees, get_employees, get_employee,
    put_employee, delete_employee, employee_catch, server_error;
  repeat first
    [ progress simpl
    | match goal with
      | |- context [loginSchema X ?b] => destruct (loginSchema X b) as [?errors|?c]
      | |- context [userSchema X ?b] => destruct (userSchema X b) as [?errors|?c]
      | |- context [employeeSchema X ?b] => destruct (employeeSchema X b) as [?errors|?d]
      | |- context [exec X ?db ?q] => unfold exec; destruct (outage db) eqn:?
      | |- context [store2 ?db ?a ?b ?c ?d] =>
          destruct (store2 db a b c d) as [[?errors|?message|]|[? ?]]
      | |- context [existsb ?f ?l] => destruct (existsb f l)
      | |- context [filter ?f ?l] => destruct (filter f l)
      | |- context [count ?l =? 0] => destruct (count l =? 0)
      | |- context [bcrypt_compare X ?p ?h] => destruct (bcrypt_compare X p h)
      | |- context [jwt_sign X ?i] => destruct (jwt_sign X i)
      end ].

(** What every answer looks like: a status of the route's list, and an
    [error] string in the body exactly from 400 up. *)
Lemma serve_answer (X : Collaborators) (r : Route) (req : Request) (db : Db) :
  exists db' response,
    serve X r req db = (db', Resolved response)
    /\ In (status response) (statuses r)
    /\ if 400 <=? status response
       then exists message, get "error" (payload response) = Some (JStr message)
       else get "error" (payload response) = None.
Proof.
  destruct r; serve_cases X req;
    (do 2 eexists; split; [reflexivity|]; simpl; split;
     [repeat (first [left; reflexivity | right]) | try reflexivity; eexists; reflexivity]).
Qed.

(** X13.  No handler lets an exception escape: every request to every
    route is answered, and the status is one of
    200/400/401/500 for POST /login, 201/409/500 for POST /register,
    201/400/401 for POST /employees, 200/500 for GET /employees,
    200/404/500 for GET /employees/:id, 200/400/401/404 for
    PUT /employees/:id and 200/400/401/404/500 for DELETE /employees/:id.
    In particular POST and PUT /employees never answer 500 and
    POST /register never answers 400. *)
Theorem every_request_is_answered_within_the_table (X : Collaborators) (r : Route)
    (req : Request) (db : Db) :
  exists db' response,
    serve X r req db = (db', Resolved response) /\ In (status response) (statuses r).
Proof.
  destruct (serve_answer X r req db) as [db' [response [E [Hin _]]]].
  exists db', response; split; assumption.
Qed.

(** X14.  Every answer with a status from 400 up has a body with an
    [error] string, and no answer below 400 has an [error] key. *)
Theorem failures_carry_an_error_string (X : Collaborators) (r : Route) (req : Request)
    (db : Db) :
  exists db' response,
    serve X r req db = (db', Resolved response)
    /\ (400 <= status response ->
        exists message, get "error" (payload response) = Some (JStr message))
    /\ (status response < 400 -> get "error" (payload response) = None).
Proof.
  destruct (serve_answer X r req db) as [db' [response [E [_ H]]]].
  exists db', response; split; [exact E|].
  destruct (Z.leb_spec 400 (status response)); split; intros; try lia; exact H.
Qed.

(** What a served request leaves of the store. *)
Lemma serve_frame (X : Collaborators) (r : Route) (req : Request) (db : Db) :
  (r <> POST_register ->
   users (fst (serve X r req db)) = users db
   /\ users_auto (fst (serve X r req db)) = users_auto db)
  /\ (is_protected r = false ->
      employees (fst (serve X r req db)) = employees db
      /\ employees_auto (fst (serve X r req db)) = employees_auto db)
  /\ (r = GET_employees \/ r = GET_employee \/ r = POST_login ->
      fst (serve X r req db) = db)
  /\ strict (fst (serve X r req db)) = strict db
  /\ outage (fst (serve X r req db)) = outage db.
Proof.
  destruct r; serve_cases X req; unfold with_users, with_employees; simpl;
    intuition congruence.
Qed.

(** X15.  Only registration changes the table of users and only the routes
    behind [authenticate] change the table of employees; listing, reading
    one employee and logging in leave the whole store as it was, whatever
    they answer. *)
Theorem routes_change_only_their_table (X : Collaborators) (r : Route) (req : Request)
    (db : Db) :
  (r <> POST_register ->
   users (fst (serve X r req db)) = users db
   /\ users_auto (fst (serve X r req db)) = users_auto db)
  /\ (is_protected r = false ->
      employees (fst (serve X r req db)) = employees db
      /\ employees_auto (fst (serve X r req db)) = employees_auto db)
  /\ (r = GET_employees \/ r = GET_employee \/ r = POST_login ->
      fst (serve X r req db) = db).
Proof.
  destruct (serve_frame X r req db) as [H1 [H2 [H3 _]]]; repeat split;
    solve [apply H1; assumption | apply H2; assumption | apply H3; assumption].
Qed.

(** X16.  For a request that gets past [authenticate], and for any request
    to a route that is not behind it, the application with authentication
    answers and changes the store exactly as the application without it,
    which follows in the same file. *)
Theorem open_application_agrees (X : Collaborators) (r : Route)
    (handler : Request -> Prog Response) (req : Request) (db : Db) :
  Open.app X r = Some handler ->
  is_protected r = false \/ authorized X req = true ->
  serve X r req db = run X (handler req) db.
Proof.
  intros Hh [Hp|Ha].
  - destruct r; try discriminate Hp; simpl in Hh; inversion Hh; reflexivity.
  - destruct (authorized_next X req Ha) as [decoded E].
    destruct r; simpl in Hh; inversion Hh; try reflexivity;
      unfold serve; simpl; unfold protected; rewrite E; reflexivity.
Qed.

Lemma open_application_agrees_witness :
  let req := Sample.request (Some "Bearer good") (Sample.employee_body "Jo" "Eng") "" in
  serve Sample.libs POST_employees req Sample.one_employee
  = run Sample.libs (post_employees Sample.libs req) Sample.one_employee.
Proof.
  intros req.
  apply (open_application_agrees Sample.libs POST_employees
           (post_employees Sample.libs) req Sample.one_employee eq_refl).
  right; reflexivity.
Defined.

(** ** What the table of employees always satisfies *)

Lemma length_substring (s : string) (n : nat) :
  String.length (substring 0 n s) = Nat.min n (String.length s).
Proof.
  revert n; induction s as [|c s IH]; intros [|n]; simpl; try reflexivity.
  rewrite IH; reflexivity.
Qed.

Lemma strlen_truncate (s : string) : strlen (truncate s) = Z.min 255 (strlen s).
Proof.
  unfold strlen, truncate, varchar; rewrite length_substring; lia.
Qed.

(** A new or replaced row whose values the schema accepted is a valid row
    once the columns have taken (and maybe cut) them. *)
Lemma stored_row_valid (id : Z) (n p : string) :
  2 <= strlen n -> 2 <= strlen p ->
  row_valid {| emp_id := id; emp_name := truncate n; emp_position := truncate p |} = true.
Proof.
  intros Ln Lp; unfold row_valid; simpl; rewrite !strlen_truncate.
  repeat (apply andb_true_intro; split); apply Z.leb_le; lia.
Qed.

Lemma store2_truncates (db : Db) (c1 v1 c2 v2 a b : string) :
  store2 db c1 v1 c2 v2 = inr (a, b) -> a = truncate v1 /\ b = truncate v2.
Proof.
  unfold store2.
  destruct (negb (fits v1) && strict db); [discriminate|].
  destruct (negb (fits v2) && strict db); [discriminate|].
  intros [= <- <-]; split; reflexivity.
Qed.

(** Statements keep the rows valid when the values they carry are. *)
Lemma exec_keeps_rows_valid (X : Collaborators) (db : Db) {T : Type} (q : Sql T) :
  rows_valid db = true ->
  match q with
  | InsertEmployee n p => 2 <= strlen n /\ 2 <= strlen p
  | UpdateEmployee n p _ => 2 <= strlen n /\ 2 <= strlen p
  | _ => True
  end ->
  rows_valid (fst (exec X db q)) = true.
Proof.
  unfold rows_valid, exec; intros H Hq.
  destruct (outage db); [exact H|].
  destruct q; simpl; try exact H.
  - destruct (store2 db _ _ _ _) as [e|[a b]]; simpl; [exact H|].
    destruct (existsb _ _); simpl; exact H.
  - destruct (store2 db _ _ _ _) as [e|[a b]] eqn:Es; simpl; [exact H|].
    destruct (store2_truncates _ _ _ _ _ _ _ Es) as [-> ->].
    rewrite forallb_app, H; simpl.
    rewrite stored_row_valid by tauto; reflexivity.
  - destruct (existsb _ _); simpl; [|exact H].
    destruct (store2 db _ _ _ _) as [e|[a b]] eqn:Es; simpl; [exact H|].
    destruct (store2_truncates _ _ _ _ _ _ _ Es) as [-> ->].
    rewrite forallb_forall in H. apply forallb_forall; intros e He.
    apply in_map_iff in He; destruct He as [r [<- Hr]].
    destruct (id_is X id r); [|apply H; exact Hr].
    apply stored_row_valid; tauto.
  - apply forallb_forall; intros e He.
    apply filter_In in He; destruct He as [He _].
    revert e He; apply forallb_forall; exact H.
Qed.

(** X17.  If every employee in the store has a name and a position of 2 to
    255 characters, so has every employee in the store after any request to
    any route: nothing is written that the schema has not accepted. *)
Theorem every_route_keeps_rows_valid (X : Collaborators) (r : Route) (req : Request)
    (db : Db) :
  rows_valid db = true ->
  rows_valid (fst (serve X r req db)) = true.
Proof.
  intros H.
  destruct (is_protected r) eqn:Hr.
  - unfold serve.
    destruct r; try discriminate Hr; simpl; unfold protected, authenticate;
      (destruct (bearer (authorization req)) as [token|];
       [destruct (jwt_verify X token) as [decoded|e] | idtac]); simpl; try exact H.
    + unfold post_employees; simpl.
      destruct (employeeSchema X (body req)) as [errors|d] eqn:Ed; simpl; [exact H|].
      destruct (employeeSchema_accepted X _ _ Ed) as [_ [_ [_ [_ Hlen]]]].
      pose proof (exec_keeps_rows_valid X db
                    (InsertEmployee (name d) (position d)) H Hlen) as Hv.
      destruct (exec X db (InsertEmployee (name d) (position d))) as [db' [e|res]];
        simpl in *; [destruct e|]; exact Hv.
    + unfold put_employee; simpl.
      destruct (employeeSchema X (body req)) as [errors|d] eqn:Ed; simpl; [exact H|].
      destruct (employeeSchema_accepted X _ _ Ed) as [_ [_ [_ [_ Hlen]]]].
      pose proof (exec_keeps_rows_valid X db
                    (UpdateEmployee (name d) (position d) (params_id req)) H Hlen) as Hv.
      destruct (exec X db (UpdateEmployee (name d) (position d) (params_id req)))
        as [db' [e|res]]; simpl in *; [destruct e| destruct (affectedRows res =? 0)];
        exact Hv.
    + unfold delete_employee; simpl.
      pose proof (exec_keeps_rows_valid X db (DeleteEmployee (params_id req)) H I) as Hv.
      destruct (exec X db (DeleteEmployee (params_id req))) as [db' [e|res]];
        simpl in *; [destruct e | destruct (affectedRows res =? 0)]; exact Hv.
  - destruct (serve_frame X r req db) as [_ [Hemp _]].
    unfold rows_valid; rewrite (proj1 (Hemp Hr)); exact H.
Qed.

Lemma every_route_keeps_rows_valid_witness :
  rows_valid
    (fst (serve Sample.libs PUT_employee
            (Sample.request (Some "Bearer good") (Sample.employee_body "Al" "Boss") "1")
            Sample.one_employee)) = true.
Proof.
  apply (every_route_keeps_rows_valid Sample.libs PUT_employee); reflexivity.
Defined.

(** ** Ids *)

Lemma NoDup_map_filter {A B : Type} (f : A -> B) (g : A -> bool) (rows : list A) :
  NoDup (map f rows) -> NoDup (map f (filter g rows)).
Proof.
  induction rows as [|r rows IH]; simpl; intros H; [exact H|].
  inversion H as [|? ? Hnot Hrest]; subst.
  destruct (g r); simpl; [|apply IH; exact Hrest].
  constructor; [|apply IH; exact Hrest].
  intros Hin; apply Hnot.
  apply in_map_iff in Hin; destruct Hin as [a [Ea Ha]].
  apply filter_In in Ha; apply in_map_iff; exists a; tauto.
Qed.

Lemma exec_keeps_ids_unique (X : Collaborators) (db : Db) {T : Type} (q : Sql T) :
  auto_increment_ahead db = true ->
  ids_unique db ->
  ids_unique (fst (exec X db q)).
Proof.
  unfold ids_unique, auto_increment_ahead, exec; intros Ha H.
  destruct (outage db); [exact H|].
  destruct q; simpl; try exact H.
  - destruct (store2 db _ _ _ _) as [e|[a b]]; simpl; [exact H|].
    destruct (existsb _ _); simpl; exact H.
  - destruct (store2 db _ _ _ _) as [e|[a b]]; simpl; [exact H|].
    rewrite map_app; simpl.
    apply NoDup_app; [exact H | repeat constructor; intros [] |].
    intros i Hi [<-|[]].
    apply in_map_iff in Hi; destruct Hi as [e [Ee He]].
    rewrite forallb_forall in Ha; specialize (Ha e He).
    apply Z.ltb_lt in Ha; lia.
  - destruct (existsb _ _); simpl; [|exact H].
    destruct (store2 db _ _ _ _) as [e|[a b]]; simpl; [exact H|].
    rewrite map_map.
    replace (map _ (employees db)) with (map emp_id (employees db)); [exact H|].
    apply map_ext; intros e; destruct (id_is X id e); reflexivity.
  - apply NoDup_map_filter; exact H.
Qed.

(** X18.  In a store where no two employees share an id and the counter is
    ahead of them all, that is still so after any request to any route: a
    new employee never gets an id in use, an update never changes an id,
    and the id of a deleted employee is not given again. *)
Theorem every_route_keeps_ids_unique (X : Collaborators) (r : Route) (req : Request)
    (db : Db) :
  auto_increment_ahead db = true ->
  ids_unique db ->
  auto_increment_ahead (fst (serve X r req db)) = true
  /\ ids_unique (fst (serve X r req db))
  /\ employees_auto db <= employees_auto (fst (serve X r req db)).
Proof.
  unfold serve; generalize (app X r req); intros p; revert db.
  induction p as [a|e|T q k IH]; intros db Ha Hu; simpl;
    [repeat split; (assumption || lia) .. |].
  pose proof (exec_keeps_auto_increment_ahead X db q Ha) as Ha'.
  pose proof (exec_keeps_ids_unique X db q Ha Hu) as Hu'.
  assert (Hmono : employees_auto db <= employees_auto (fst (exec X db q))).
  { unfold exec; destruct (outage db); [simpl; lia|].
    destruct q; simpl; try lia.
    - destruct (store2 db _ _ _ _) as [e|[a b]]; simpl; [lia|].
      destruct (existsb _ _); simpl; lia.
    - destruct (store2 db _ _ _ _) as [e|[a b]]; simpl; lia.
    - destruct (existsb _ _); simpl; [|lia].
      destruct (store2 db _ _ _ _) as [e|[a b]]; simpl; lia. }
  destruct (exec X db q) as [db' o]; simpl in *.
  destruct (IH o db' Ha' Hu') as [H1 [H2 H3]]; repeat split; (assumption || lia).
Qed.

Lemma every_route_keeps_ids_unique_witness :
  let db' := fst (serve Sample.libs POST_employees
                    (Sample.request (Some "Bearer good") (Sample.employee_body "Jo" "Eng") "")
                    Sample.one_employee) in
  auto_increment_ahead db' = true
  /\ ids_unique db'
  /\ employees_auto Sample.one_employee <= employees_auto db'.
Proof.
  apply (every_route_keeps_ids_unique Sample.libs POST_employees).
  - reflexivity.
  - unfold ids_unique; simpl; repeat constructor; intros [].
Defined.

(** * The application that keeps its employees in an array *)

Lemma find_last {A : Type} (f : A -> bool) (l : list A) (a : A) :
  find f (l ++ [a]) = match find f l with
                      | Some b => Some b
                      | None => if f a then Some a else None
                      end.
Proof.
  induction l as [|b l IH]; simpl; [reflexivity|].
  destruct (f b); [reflexivity | exact IH].
Qed.

Lemma find_none_existsb {A : Type} (f : A -> bool) (l : list A) :
  find f l = None <-> existsb f l = false.
Proof.
  induction l as [|a l IH]; simpl; [tauto|].
  destruct (f a); simpl; [split; discriminate | exact IH].
Qed.

Lemma findIndex_none_existsb {A : Type} (f : A -> bool) (l : list A) :
  Memory.findIndex f l = None <-> existsb f l = false.
Proof.
  induction l as [|a l IH]; simpl; [tauto|].
  destruct (f a); simpl; [split; discriminate|].
  destruct (Memory.findIndex f l); simpl; [|exact IH].
  split; [discriminate|]. intros H; apply IH in H; discriminate.
Qed.

Lemma length_filter_out {A : Type} (f : A -> bool) (l : list A) :
  Nat.eqb (List.length (filter (fun a => negb (f a)) l)) (List.length l)
  = negb (existsb f l).
Proof.
  assert (Hle : forall l, (List.length (filter (fun a => negb (f a)) l) <= List.length l)%nat).
  { intros l0; induction l0 as [|a l0 IH]; simpl; [lia|].
    destruct (f a); simpl; lia. }
  induction l as [|a l IH]; simpl; [reflexivity|].
  destruct (f a); simpl; [|exact IH].
  apply Nat.eqb_neq. specialize (Hle l). lia.
Qed.

Section MemoryFacts.

Variable parseInt : string -> option Z.

(** X19.  POST /employees of the array application (the one with the four
    routes) asks nothing of the body
    but that it is not [undefined] or [null]: it appends an employee whose
    id is the length of the array plus one and answers "Employee added!".
    That id may be in use already (it is after an employee other than the
    last was deleted): GET /employees/:id for it then answers with the
    older employee, and with the new one only when no older one has the
    id. *)
Theorem added_employee_can_be_shadowed (store : list Memory.Employee)
    (req get_req : Request) (n p : option json) :
  Memory.member "name" (body req) = Some n ->
  Memory.member "position" (body req) = Some p ->
  parseInt (params_id get_req) = Some (Z.of_nat (List.length store) + 1) ->
  let id := Z.of_nat (List.length store) + 1 in
  let added := [("id", Some (JNum id)); ("name", n); ("position", p)] in
  Memory.post_employees store req
  = ((store ++ [added])%list,
     Memory.Answered {| Memory.code := 200; Memory.sent := Memory.Text "Employee added!" |})
  /\ Memory.get_employee parseInt (store ++ [added]) get_req
     = ((store ++ [added])%list,
        Memory.Answered
          {| Memory.code := 200;
             Memory.sent :=
               Memory.Object match find (Memory.id_is (Some id)) store with
                             | Some older => older
                             | None => added
                             end |}).
Proof.
  intros Hn Hp Hid id added; split.
  - unfold Memory.post_employees; rewrite Hn, Hp; reflexivity.
  - unfold Memory.get_employee; rewrite Hid; fold id; rewrite find_last.
    destruct (find (Memory.id_is (Some id)) store); [reflexivity|].
    unfold Memory.id_is at 1, added; simpl; rewrite Z.eqb_refl; reflexivity.
Qed.

End MemoryFacts.

(** Three employees were added to the initial array and the second of them
    deleted: the ids are 1, 2, 4, and the next POST gives 4 again. *)
Lemma added_employee_can_be_shadowed_witness :
  let row (i : Z) (n : string) : Memory.Employee :=
    [("id", Some (JNum i)); ("name", Some (JStr n)); ("position", Some (JStr "Eng"))] in
  let store := [row 1 "Ali"; row 2 "Bo"; row 4 "Di"] in
  let req := Sample.request None (Sample.employee_body "Ed" "Eng") "" in
  Memory.post_employees store req
  = ((store ++ [row 4 "Ed"])%list,
     Memory.Answered {| Memory.code := 200; Memory.sent := Memory.Text "Employee added!" |})
  /\ Memory.get_employee undecimal (store ++ [row 4 "Ed"]) (Sample.request None None "4")
     = ((store ++ [row 4 "Ed"])%list,
        Memory.Answered {| Memory.code := 200; Memory.sent := Memory.Object (row 4 "Di") |}).
Proof.
  intros row store req.
  exact (added_employee_can_be_shadowed undecimal store req (Sample.request None None "4")
           (Some (JStr "Ed")) (Some (JStr "Eng")) eq_refl eq_refl eq_refl).
Defined.

Section MemoryUpdates.

Variable parseInt : string -> option Z.

Lemma assoc_app {V : Type} (key : string) (a b : list (string * V)) :
  assoc key (a ++ b) = match assoc key a with
                       | Some v => Some v
                       | None => assoc key b
                       end.
Proof.
  induction a as [|[k v] a IH]; simpl; [reflexivity|].
  destruct (String.eqb k key); [reflexivity | exact IH].
Qed.

Lemma assoc_merged_own (e updates : Memory.Employee) (key : string) :
  assoc key (map (fun kv => (fst kv, match assoc (fst kv) updates with
                                     | Some v => v
                                     | None => snd kv
                                     end)) e)
  = match assoc key e with
    | Some v => Some match assoc key updates with
                     | Some v' => v'
                     | None => v
                     end
    | None => None
    end.
Proof.
  induction e as [|[k v] e IH]; simpl; [reflexivity|].
  destruct (String.eqb k key) eqn:E; [|exact IH].
  apply String.eqb_eq in E; subst k; reflexivity.
Qed.

Lemma assoc_filter_new (e updates : Memory.Employee) (key : string) :
  Memory.has_key key e = false ->
  assoc key (filter (fun kv => negb (Memory.has_key (fst kv) e)) updates)
  = assoc key updates.
Proof.
  intros Hk; induction updates as [|[k v] updates IH]; simpl; [reflexivity|].
  destruct (String.eqb k key) eqn:E.
  - apply String.eqb_eq in E; subst k; rewrite Hk; simpl.
    rewrite String.eqb_refl; reflexivity.
  - destruct (negb (Memory.has_key k e)); simpl; [rewrite E|]; exact IH.
Qed.

(** Every property of a merged object: the update's value when the update
    has the property, the old value otherwise. *)
Lemma prop_merge (e updates : Memory.Employee) (key : string) :
  Memory.prop key (Memory.merge e updates)
  = match assoc key updates with
    | Some v => v
    | None => Memory.prop key e
    end.
Proof.
  unfold Memory.prop, Memory.merge; rewrite assoc_app, assoc_merged_own.
  destruct (assoc key e) as [v|] eqn:E; [reflexivity|].
  rewrite assoc_filter_new by (unfold Memory.has_key; rewrite E; reflexivity).
  destruct (assoc key updates); reflexivity.
Qed.

Lemma findIndex_nth {A : Type} (f : A -> bool) (l : list A) (i : nat) (d : A) :
  Memory.findIndex f l = Some i ->
  nth_error l i = Some (nth i l d) /\ f (nth i l d) = true
  /\ find f l = Some (nth i l d).
Proof.
  revert i; induction l as [|a l IH]; simpl; intros i; [discriminate|].
  destruct (f a) eqn:E.
  - intros [= <-]; simpl; repeat split; assumption || reflexivity.
  - destruct (Memory.findIndex f l) as [j|]; [|discriminate].
    intros [= <-]; simpl; apply IH; reflexivity.
Qed.

Lemma nth_error_assign {A : Type} (i j : nat) (a : A) (l : list A) :
  nth_error (Memory.assign i a l) j
  = if Nat.eqb i j then option_map (fun _ => a) (nth_error l j) else nth_error l j.
Proof.
  revert i j; induction l as [|b l IH]; intros [|i] [|j]; simpl; try reflexivity.
  - destruct (Nat.eqb i j); reflexivity.
  - apply IH.
Qed.

(** X20.  PUT /employees/:id of the array application, when an employee
    has the id [parseInt] reads from the path: the first such employee is
    replaced, in its place, by the merge of it and the body, and the merge is
    the answer.  Every property the body has is taken from the body (the
    [id] too, and properties no employee had), with no check of its value;
    every other property is kept; and the other employees are left as they
    were. *)
Theorem put_merges_the_body_unchecked (store : list Memory.Employee) (req : Request)
    (i : nat) :
  Memory.findIndex (Memory.id_is (parseInt (params_id req))) store = Some i ->
  exists old merged,
    nth_error store i = Some old
    /\ Memory.put_employee parseInt store req
       = (Memory.assign i merged store,
          Memory.Answered {| Memory.code := 200; Memory.sent := Memory.Object merged |})
    /\ (forall key,
          Memory.prop key merged
          = match assoc key (Memory.own (body req)) with
            | Some v => v
            | None => Memory.prop key old
            end)
    /\ forall j, nth_error (Memory.assign i merged store) j
                 = if Nat.eqb i j then Some merged else nth_error store j.
Proof.
  intros Hi.
  destruct (findIndex_nth _ _ _ [] Hi) as [Hnth _].
  exists (nth i store []), (Memory.merge (nth i store []) (Memory.own (body req))).
  split; [exact Hnth|]; split; [|split].
  - unfold Memory.put_employee; rewrite Hi; reflexivity.
  - intros key; apply prop_merge.
  - intros j; rewrite nth_error_assign.
    destruct (Nat.eqb_spec i j) as [E|]; [|reflexivity].
    rewrite <- E; unfold Memory.Employee in *; rewrite Hnth; reflexivity.
Qed.

(** X21.  DELETE /employees/:id of the array application removes every
    employee whose id is the number read from the path and keeps the
    others in their order; it answers "Employee deleted successfully" when
    there was one and 404 "Employee not found", with the array unchanged,
    when there was none.  After it a GET for the same path answers 404. *)
Theorem array_delete_removes_every_match (store : list Memory.Employee)
    (req get_req : Request) :
  params_id get_req = params_id req ->
  let id := parseInt (params_id req) in
  let kept := filter (fun emp => negb (Memory.id_is id emp)) store in
  Memory.delete_employee parseInt store req
  = (kept,
     Memory.Answered
       (if existsb (Memory.id_is id) store
        then {| Memory.code := 200;
                Memory.sent := Memory.Text "Employee deleted successfully" |}
        else {| Memory.code := 404; Memory.sent := Memory.Text "Employee not found" |}))
  /\ (existsb (Memory.id_is id) store = false -> kept = store)
  /\ Memory.get_employee parseInt kept get_req
     = (kept, Memory.Answered {| Memory.code := 404;
                                 Memory.sent := Memory.Text "Employee not found" |}).
Proof.
  intros Hid id kept; split; [|split].
  - unfold Memory.delete_employee; fold id; fold kept.
    unfold kept; rewrite length_filter_out.
    destruct (existsb (Memory.id_is id) store); reflexivity.
  - apply filter_keeps_all.
  - unfold Memory.get_employee, kept; rewrite Hid; fold id.
    rewrite (proj2 (find_none_existsb _ _) (filter_out_then_none (Memory.id_is id) store)).
    reflexivity.
Qed.

(** X22.  When [parseInt] makes no number of the path parameter, the GET,
    PUT and DELETE routes of the array application all answer 404
    "Employee not found" and leave the array as it was, whatever it holds. *)
Theorem path_that_is_no_number_finds_nothing (store : list Memory.Employee)
    (req : Request) :
  parseInt (params_id req) = None ->
  let not_found :=
    (store, Memory.Answered {| Memory.code := 404;
                               Memory.sent := Memory.Text "Employee not found" |}) in
  Memory.get_employee parseInt store req = not_found
  /\ Memory.put_employee parseInt store req = not_found
  /\ Memory.delete_employee parseInt store req = not_found.
Proof.
  intros Hnan not_found.
  assert (Hnone : existsb (Memory.id_is None) store = false).
  { induction store as [|e store IH]; simpl; [reflexivity|].
    rewrite IH; unfold Memory.id_is.
    destruct (Memory.prop "id" e) as [[]|]; reflexivity. }
  repeat split.
  - unfold Memory.get_employee; rewrite Hnan.
    rewrite (proj2 (find_none_existsb _ _) Hnone); reflexivity.
  - unfold Memory.put_employee; rewrite Hnan.
    rewrite (proj2 (findIndex_none_existsb _ _) Hnone); reflexivity.
  - unfold Memory.delete_employee; rewrite Hnan, length_filter_out, Hnone; simpl.
    rewrite (filter_keeps_all _ _ Hnone); reflexivity.
Qed.

End MemoryUpdates.

Lemma put_merges_the_body_unchecked_witness :
  let store := Memory.employees in
  let req := Sample.request None (Some (JObj [("id", JNum 7); ("name", JNum 0)])) "1" in
  exists old merged,
    nth_error store 0 = Some old
    /\ Memory.put_employee undecimal store req
       = (Memory.assign 0 merged store,
          Memory.Answered {| Memory.code := 200; Memory.sent := Memory.Object merged |})
    /\ (forall key,
          Memory.prop key merged
          = match assoc key (Memory.own (body req)) with
            | Some v => v
            | None => Memory.prop key old
            end)
    /\ forall j, nth_error (Memory.assign 0 merged store) j
                 = if Nat.eqb 0 j then Some merged else nth_error store j.
Proof.
  intros store req.
  exact (put_merges_the_body_unchecked undecimal store req 0 eq_refl).
Defined.

Lemma array_delete_removes_every_match_witness :
  Memory.delete_employee undecimal Memory.employees (Sample.request None None "1")
  = ([], Memory.Answered {| Memory.code := 200;
                            Memory.sent := Memory.Text "Employee deleted successfully" |})
  /\ (true = false -> [] = Memory.employees)
  /\ Memory.get_employee undecimal [] (Sample.request None None "1")
     = ([], Memory.Answered {| Memory.code := 404;
                               Memory.sent := Memory.Text "Employee not found" |}).
Proof.
  exact (array_delete_removes_every_match undecimal Memory.employees
           (Sample.request None None "1") (Sample.request None None "1") eq_refl).
Defined.

Lemma path_that_is_no_number_finds_nothing_witness :
  let not_found :=
    (Memory.employees,
     Memory.Answered {| Memory.code := 404;
                        Memory.sent := Memory.Text "Employee not found" |}) in
  Memory.get_employee undecimal Memory.employees (Sample.request None None "abc") = not_found
  /\ Memory.put_employee undecimal Memory.employees (Sample.request None None "abc")
     = not_found
  /\ Memory.delete_employee undecimal Memory.employees (Sample.request None None "abc")
     = not_found.
Proof.
  exact (path_that_is_no_number_finds_nothing undecimal Memory.employees
           (Sample.request None None "abc") eq_refl).
Defined.

(** * The application on SQLite *)

Section LiteFacts.

Variable X : Collaborators.

(** X23.  On the SQLite application the round trip holds at every length:
    for a name and a position of at least two characters, however long,
    POST /employees answers 201 with the record and the id the table
    assigned, and a GET /employees/:id whose path parameter the engine
    equates with that id alone answers 200 with an equal record. *)
Theorem lite_create_then_get_at_every_length (req get_req : Request) (db : Db)
    (fields : list (string * json)) (n p : string) :
  outage db = None ->
  auto_increment_ahead db = true ->
  body req = Some (JObj fields) ->
  assoc "name" fields = Some (JStr n) ->
  assoc "position" fields = Some (JStr p) ->
  2 <= strlen n ->
  2 <= strlen p ->
  (forall i, sql_int_eq X i (params_id get_req) = (i =? employees_auto db)) ->
  exists db' record,
    Lite.run X (post_employees X req) db = (db', Resolved (respond 201 record))
    /\ record = JObj [("id", JNum (employees_auto db)); ("name", JStr n);
                      ("position", JStr p)]
    /\ Lite.run X (get_employee X get_req) db' = (db', Resolved (respond 200 record)).
Proof.
  intros Ho Hahead Hb Hn Hp Ln Lp Hid.
  unfold post_employees.
  rewrite Hb, (employeeSchema_accepts X fields n p Hn Hp Ln Lp); simpl.
  unfold Lite.exec at 1; rewrite Ho; simpl.
  do 2 eexists; split; [reflexivity|]; split; [reflexivity|].
  unfold get_employee; simpl. unfold Lite.exec; simpl; rewrite Ho; simpl.
  rewrite (select_new_row X (params_id get_req) (employees_auto db)) by
    (assumption || reflexivity).
  reflexivity.
Qed.

End LiteFacts.

Lemma lite_create_then_get_witness :
  let long := Sample.letters 300 in
  exists db' record,
    Lite.run Sample.libs
      (post_employees Sample.libs (Sample.request None (Sample.employee_body long "Eng") ""))
      Sample.one_employee
    = (db', Resolved (respond 201 record))
    /\ record = JObj [("id", JNum 2); ("name", JStr long); ("position", JStr "Eng")]
    /\ Lite.run Sample.libs (get_employee Sample.libs (Sample.request None None "2")) db'
       = (db', Resolved (respond 200 record)).
Proof.
  intros long.
  assert (Hlen : forall s, s = long \/ s = "Eng" -> 2 <= strlen s)
    by (intros s [->| ->]; vm_compute; discriminate).
  exact (lite_create_then_get_at_every_length Sample.libs
           (Sample.request None (Sample.employee_body long "Eng") "")
           (Sample.request None None "2") Sample.one_employee
           [("name", JStr long); ("position", JStr "Eng")] long "Eng"
           eq_refl eq_refl eq_refl eq_refl eq_refl
           (Hlen _ (or_introl eq_refl)) (Hlen _ (or_intror eq_refl))
           (fun i => eq_refl)).
Defined.


(** ** SQLite and MySQL side by side *)







(** On the path "1abc" they do not: the engine that reads the leading
    number finds employee 1 where the other finds nothing, and the two
    applications answer GET /employees/1abc with 200 and with 404. *)
Lemma engines_part_on_trailing_text :
  let req := Sample.request None None "1abc" in
  Lite.run Sample.libs (get_employee Sample.libs req) Sample.one_employee
  = (Sample.one_employee, Resolved (respond 404 (error_body "Employee not found")))
  /\ run prefix_libs (get_employee prefix_libs req) Sample.one_employee
     = (Sample.one_employee,
        Resolved (respond 200 (JObj [("id", JNum 1); ("name", JStr "Ali");
                                     ("position", JStr "Manager")]))).
Proof. split; reflexivity. Qed.
